(** * The question-answering pipeline of the Bihar election analytics service

    A shallow embedding of [llm.py] and of the [/ask] route of [main.py]:
    the textual query validator [sql_safe], the prompt builders, the
    post-processing of the oracle's replies, and the
    generate / validate / execute / repair / summarise control flow of [ask];
    also the input cleaning of the [/constituency/search] route.

    Python [str] values are modelled by [string]: a text is the sequence of
    its UTF-8 bytes.  [startswith], [endswith], [in], [replace], slicing by
    a prefix or suffix that was just matched and [strip(chars)] on ASCII
    [chars] read the same on bytes as on code points.  [strip()] and
    [lower()] are modelled on the ASCII range (Python's ASCII whitespace
    table, [A-Z]); bytes above 127 are left as they are. *)

From Stdlib Require Import String Ascii List Arith ZArith Bool Lia DecimalString.
From Stdlib Require QArith_base.
Import ListNotations.
Local Open Scope list_scope.
Local Open Scope string_scope.

(** ** Python string built-ins *)

Module PyStr.

Definition nl : string := String "010"%char "".
Definition dquote : string := String "034"%char "".

(** [str.isspace] on one ASCII character: TAB, LF, VT, FF, CR, the four
    separators FS, GS, RS, US, and the space. *)
Definition isspace (c : ascii) : bool :=
  let n := nat_of_ascii c in
  ((9 <=? n)%nat && (n <=? 13)%nat) || ((28 <=? n)%nat && (n <=? 32)%nat).

Fixpoint lstrip_by (p : ascii -> bool) (s : string) : string :=
  match s with
  | EmptyString => EmptyString
  | String c s' => if p c then lstrip_by p s' else s
  end.

Fixpoint rstrip_by (p : ascii -> bool) (s : string) : string :=
  match s with
  | EmptyString => EmptyString
  | String c s' =>
      match rstrip_by p s' with
      | EmptyString => if p c then EmptyString else String c EmptyString
      | r => String c r
      end
  end.

Definition strip_by (p : ascii -> bool) (s : string) : string :=
  rstrip_by p (lstrip_by p s).

(** [s.strip()] *)
Definition strip (s : string) : string := strip_by isspace s.

Fixpoint mem_char (c : ascii) (chars : string) : bool :=
  match chars with
  | EmptyString => false
  | String d chars' => Ascii.eqb c d || mem_char c chars'
  end.

(** [s.strip(chars)] *)
Definition strip_chars (chars s : string) : string :=
  strip_by (fun c => mem_char c chars) s.

Definition lower_char (c : ascii) : ascii :=
  let n := nat_of_ascii c in
  if (65 <=? n)%nat && (n <=? 90)%nat then ascii_of_nat (n + 32) else c.

(** [s.lower()] *)
Fixpoint lower (s : string) : string :=
  match s with
  | EmptyString => EmptyString
  | String c s' => String (lower_char c) (lower s')
  end.

(** [s.startswith(p)] *)
Definition startswith (s p : string) : bool := prefix p s.

(** [s[n:]] for [0 <= n] *)
Fixpoint drop (n : nat) (s : string) : string :=
  match n, s with
  | O, _ => s
  | S _, EmptyString => EmptyString
  | S n', String _ s' => drop n' s'
  end.

(** [s[:n]] for [0 <= n] *)
Fixpoint take (n : nat) (s : string) : string :=
  match n, s with
  | O, _ => EmptyString
  | S _, EmptyString => EmptyString
  | S n', String c s' => String c (take n' s')
  end.

(** [s.endswith(p)] *)
Definition endswith (s p : string) : bool :=
  (String.length p <=? String.length s)%nat &&
  String.eqb (drop (String.length s - String.length p) s) p.

(** [s[:-n]] for [0 < n] *)
Definition drop_last (n : nat) (s : string) : string :=
  take (String.length s - n) s.

(** [needle in s] *)
Fixpoint contains (needle s : string) : bool :=
  prefix needle s ||
  match s with
  | EmptyString => false
  | String _ s' => contains needle s'
  end.

(** [s.replace(old, new)] for a non-empty [old]: scan from the left, and at
    each occurrence of [old] emit [new] and skip over the occurrence.
    [skip] counts the characters of the current occurrence still to pass. *)
Fixpoint replace_from (skip : nat) (old new s : string) : string :=
  match s with
  | EmptyString => EmptyString
  | String c s' =>
      match skip with
      | S k => replace_from k old new s'
      | O =>
          if prefix old s
          then new ++ replace_from (String.length old - 1) old new s'
          else String c (replace_from 0 old new s')
      end
  end.

Definition replace (s old new : string) : string := replace_from 0 old new s.

(** [str(n)] for a non-negative [int] *)
Definition str_of_nat (n : nat) : string :=
  NilEmpty.string_of_uint (Nat.to_uint n).

(** [sep.join(parts)] *)
Fixpoint join (sep : string) (parts : list string) : string :=
  match parts with
  | [] => EmptyString
  | [p] => p
  | p :: rest => p ++ sep ++ join sep rest
  end.

End PyStr.
Import PyStr.

(** Propositional readings of the string tests, as a specification states
    them. *)
Definition StartsWith (s p : string) : Prop := exists rest, s = p ++ rest.
Definition Substring (needle s : string) : Prop :=
  exists pre post, s = pre ++ needle ++ post.

(** Every character of [s] satisfies [p]. *)
Fixpoint forall_chars (p : ascii -> bool) (s : string) : bool :=
  match s with
  | EmptyString => true
  | String c s' => p c && forall_chars p s'
  end.

Definition head_char (s : string) : option ascii :=
  match s with
  | EmptyString => None
  | String c _ => Some c
  end.

Fixpoint last_char (s : string) : option ascii :=
  match s with
  | EmptyString => None
  | String c EmptyString => Some c
  | String _ s' => last_char s'
  end.

(** ** llm.py: the validator *)

Definition bad : list string :=
  ["insert"; "update"; "delete"; "drop"; "alter"; "create"; "truncate"].

Definition sql_safe (sql : string) : bool :=
  let lowered := lower (strip sql) in
  if negb (startswith lowered "select") && negb (startswith lowered "with")
  then false
  else negb (existsb (fun b => contains b lowered) bad).

(** The validator's rule as section 4.3 of the specification words it. *)
Definition validator_accepts (query : string) : Prop :=
  let text := lower (strip query) in
  (StartsWith text "select" \/ StartsWith text "with") /\
  (forall kw, In kw ["insert"; "update"; "delete"; "drop"; "alter"; "create"; "truncate"] ->
     ~ Substring kw text).


(** ** llm.py: constants and prompts *)

Definition SQL_MODEL : string := "gpt-4o".
Definition ANSWER_MODEL : string := "gpt-4o".

Definition MAX_ROWS_FOR_ANSWER : nat := 120.

Definition DB_SCHEMA : string :=
  join nl
    [ "";
      "We have these DuckDB tables and views:";
      "";
      "1) candidates(";
      "  state TEXT,";
      "  ac_no INT,";
      "  ac_name TEXT,";
      "  sn INT,";
      "  candidate TEXT,";
      "  party TEXT,";
      "  evm_votes INT,";
      "  postal_votes INT,";
      "  total_votes INT,";
      "  vote_percent DOUBLE,";
      "  is_winner BOOLEAN";
      ")";
      "";
      "2) ac_totals(";
      "  state TEXT,";
      "  ac_no INT,";
      "  ac_name TEXT,";
      "  total_evm_votes INT,";
      "  total_postal_votes INT,";
      "  total_votes INT";
      ")";
      "";
      "3) party_summary(";
      "  state TEXT,";
      "  party TEXT,";
      "  seats_won INT,";
      "  total_votes BIGINT,";
      "  vote_share DOUBLE";
      ")";
      "";
      "4) party_map(";
      "  party_name TEXT,      -- as it appears in the CSV";
      "  canonical_name TEXT,  -- nice standardized name";
      "  short_code TEXT,      -- e.g. 'BJP', 'RJD', 'VIP', 'JDU'";
      "  alliance TEXT         -- e.g. 'NDA', 'MGB', or NULL/OTHER";
      ")";
      "";
      "5) candidates_enriched (VIEW) as:";
      "  SELECT";
      "    c.*,";
      "    pm.canonical_name AS party_canonical,";
      "    pm.short_code     AS party_short,";
      "    COALESCE(pm.alliance, 'OTHER') AS alliance";
      "  FROM candidates c";
      "  LEFT JOIN party_map pm ON c.party = pm.party_name;";
      "";
      "  Columns:";
      "  state, ac_no, ac_name, sn, candidate, party,";
      "  evm_votes, postal_votes, total_votes, vote_percent, is_winner,";
      "  party_canonical, party_short, alliance";
      "";
      "6) party_summary_enriched (VIEW) as:";
      "  SELECT";
      "    ps.state,";
      "    ps.party,";
      "    pm.canonical_name AS party_canonical,";
      "    pm.short_code     AS party_short,";
      "    COALESCE(pm.alliance, 'OTHER') AS alliance,";
      "    ps.seats_won,";
      "    ps.total_votes,";
      "    ps.vote_share";
      "  FROM party_summary ps";
      "  LEFT JOIN party_map pm ON ps.party = pm.party_name;";
      "";
      "  Columns:";
      "  state, party, party_canonical, party_short, alliance,";
      "  seats_won, total_votes, vote_share";
      "";
      "7) alliance_summary(";
      "  alliance TEXT,        -- 'NDA', 'MGB', 'OTHER'";
      "  seats_won INT,";
      "  total_votes BIGINT,";
      "  vote_share DOUBLE";
      ")";
      "";
      "Notes:";
      "- alliance is typically 'NDA', 'MGB', or 'OTHER'.";
      "- party_short contains short codes like 'BJP', 'RJD', 'VIP', 'JDU', etc.";
      "- For queries about alliances (NDA vs MGB), use alliance_summary or group by alliance";
      "  in candidates_enriched or party_summary_enriched.";
      "- For queries that use party short codes (e.g. 'BJP', 'RJD'), filter on party_short";
      "  in candidates_enriched or party_summary_enriched.";
      "" ].

Definition DOMAIN_CONTEXT : string :=
  join nl
    [ "";
      "IMPORTANT PARTY ABBREVIATIONS & CONTEXT:";
      "- JSP = Jan Suraaj Party (Founded by Prashant Kishor). IT IS NOT " ++ dquote ++ "Janata Socialist Party" ++ dquote ++ ".";
      "- RJD = Rashtriya Janata Dal";
      "- JDU = Janata Dal (United)";
      "- VIP = Vikassheel Insaan Party";
      "- HAM = Hindustani Awam Morcha";
      "- CPIML / CPI(ML) = Communist Party of India (Marxist–Leninist) Liberation";
      "- AIMIM = All India Majlis-e-Ittehadul Muslimeen";
      "- IND = Independent candidates (not a political party)";
      "" ].

(** The prompt of [generate_sql]: the f-string, line by line, then
    [.strip()]. *)
Definition generate_sql_prompt (question : string) : string :=
  strip
    (join nl
       [ "";
         "You are a data analyst writing SQL for DuckDB against the following schema:";
         "";
         DB_SCHEMA;
         "";
         DOMAIN_CONTEXT;
         "";
         "Write a SINGLE SQL SELECT query that answers the user's question.";
         "";
         "Rules:";
         "- Only use SELECT (no INSERT/UPDATE/DELETE/CREATE/DROP/ALTER/TRUNCATE).";
         "- Do not modify data.";
         "- Prefer concise results (include LIMIT where appropriate).";
         "- For vague questions like " ++ dquote ++ "Top candidates" ++ dquote ++ ", default LIMIT 50.";
         "- Use correct column and table/view names.";
         "- Prefer using candidates_enriched, party_summary_enriched, and alliance_summary";
         "  when working with alliances or party short codes.";
         "- Be careful with table aliases: if you alias a table as " ++ dquote ++ "ce" ++ dquote ++ ", use " ++ dquote ++ "ce" ++ dquote ++ " consistently.";
         "- Do NOT wrap the query in backticks.";
         "- Return only the SQL, nothing else.";
         "";
         "User question: " ++ question;
         "" ]).

(** The note [generate_answer_text] adds when it cut the rows. *)
Definition truncation_note_text (total_rows : nat) : string :=
  nl ++ "NOTE: Only the first " ++ str_of_nat MAX_ROWS_FOR_ANSWER ++ " of " ++
  str_of_nat total_rows ++ " rows " ++
  "are shown in Result rows. Base your answer on these, and you may " ++
  "describe overall patterns without listing every row.".

(** The f-string of [generate_answer_text] before [.strip()]. *)
Definition answer_prompt_template
    (question sql rows_json truncation_note : string) : string :=
  join nl
    [ "";
      "User question:";
      question;
      "";
      "SQL used:";
      sql;
      "";
      DOMAIN_CONTEXT;
      "";
      "Result rows (JSON, up to " ++ str_of_nat MAX_ROWS_FOR_ANSWER ++ " rows):";
      rows_json;
      truncation_note;
      "";
      "Instructions:";
      "- Base your answer ONLY on the information in the result rows.";
      "- Explain the answer clearly in 1–3 short paragraphs.";
      "- Highlight key numbers (vote shares, total votes, seats won, margins, etc.) when relevant.";
      "- If the result is a list (e.g., top candidates or constituencies), summarise patterns";
      "  such as which parties or alliances dominate.";
      "- If there are no rows, say that no matching data was found.";
      "- Do NOT invent data that is not present in the rows.";
      "- STRICTLY use the party abbreviations defined in the CONTEXT (e.g., JSP is Jan Suraaj Party).";
      "" ].

(** ** The external collaborators

    The oracle (the chat-completions endpoint), the store (the in-memory
    DuckDB connection) and the two library conversions ([DataFrame] to
    records, [json.dumps]) are outside the repository.  They are taken as a
    parameter: the oracle and the store as state machines, so that a reply
    may depend on everything that happened before and a statement may
    change the store. *)

Record ChatRequest := {
  model : string;
  prompt : string;       (* content of the single user message *)
  temperature : QArith_base.Q
}.

Record Externals := {
  OracleState : Type;
  StoreState : Type;
  DataFrame : Type;
  Row : Type;
  (* client.chat.completions.create(...).choices[0].message.content:
     [inr content], or [inl msg] when the expression raises *)
  chat_completions_create :
    OracleState -> ChatRequest -> (string + string) * OracleState;
  (* conn.cursor().execute(sql).df(): [inr df], or [inl (str e)] for the
     duckdb.Error [e] it raises *)
  cursor_execute : StoreState -> string -> (string + DataFrame) * StoreState;
  (* main.py, df_to_clean_dict: pandas calls only, NaN becomes None *)
  df_to_clean_dict : DataFrame -> list Row;
  (* json.dumps(rows, ensure_ascii=False, indent=2) *)
  json_dumps : list Row -> string
}.

(** The function of the source that issues an oracle call. *)
Inductive Caller := In_generate_sql | In_repair_sql | In_generate_answer_text.

(** What a request does to the outside, in order, with the replies. *)
Inductive Event (X : Externals) :=
| OracleCall (caller : Caller) (request : ChatRequest) (reply : string + string)
| StoreExecute (statement : string) (result : string + DataFrame X).
Arguments OracleCall {X} _ _ _.
Arguments StoreExecute {X} _ _.

Record World (X : Externals) := {
  oracle : OracleState X;
  store : StoreState X;
  trace : list (Event X)
}.
Arguments oracle {X} _.
Arguments store {X} _.
Arguments trace {X} _.

(** Exceptions that leave [ask]. *)
Inductive Exn :=
| HTTPException (status_code : nat) (detail : string)
| OracleError (message : string).

(** main.py: the request and response models.  The request's only field
    is the question text. *)
Record AskRequest := { req_question : string }.

Record AskResponse (X : Externals) := {
  question : string;
  sql : string;
  answer : string;
  rows : list (Row X)
}.
Arguments question {X} _.
Arguments sql {X} _.
Arguments answer {X} _.
Arguments rows {X} _.

(** Post-processing of the generator's reply ([generate_sql], after the
    oracle call). *)
Definition clean_generated_sql (content : string) : string :=
  let sql := strip content in
  let sql := if startswith sql "```sql" then drop 6 sql else sql in
  let sql := if startswith sql "```" then drop 3 sql else sql in
  let sql := if endswith sql "```" then drop_last 3 sql else sql in
  strip sql.

(** Post-processing of the repair reply ([repair_sql], after the oracle
    call). *)
Definition clean_repaired_sql (content : string) : string :=
  let fixed := strip content in
  if startswith fixed "```"
  then strip (replace (strip_chars "`" fixed) "sql" "")
  else fixed.

Definition repair_prompt (question bad_sql error_msg : string) : string :=
  "Fix SQL: " ++ bad_sql ++ " Error: " ++ error_msg ++ " Question: " ++ question ++
  " Return SINGLE SELECT query. No Markdown.".

Definition generate_sql_request (question : string) : ChatRequest :=
  {| model := SQL_MODEL;
     prompt := generate_sql_prompt question;
     temperature := QArith_base.Qmake 0%Z 1%positive |}.

Definition repair_sql_request (question bad_sql error_msg : string) : ChatRequest :=
  {| model := "gpt-4o";
     prompt := repair_prompt question bad_sql error_msg;
     temperature := QArith_base.Qmake 0%Z 1%positive |}.

(** The suffix [ask] appends to the answer of a long result. *)
Definition found_note (n : nat) : string :=
  nl ++ nl ++ "**Note:** Found " ++ str_of_nat n ++
  " results. I've summarized the top few above. Please refer to the data table for the full list.".

Section Pipeline.

Variable X : Externals.

(** A computation of the request handler: it reads and updates the world
    and returns a value or raises. *)
Definition M (A : Type) : Type := World X -> (Exn + A) * World X.

Definition ret {A : Type} (a : A) : M A := fun w => (inr a, w).

Definition raise {A : Type} (e : Exn) : M A := fun w => (inl e, w).

Definition bind {A B : Type} (c : M A) (k : A -> M B) : M B :=
  fun w =>
    match c w with
    | (inl e, w') => (inl e, w')
    | (inr a, w') => k a w'
    end.

Local Notation "x <- c ;; k" := (bind c (fun x => k))
  (at level 61, c at next level, right associativity).

(** One round-trip to the oracle.  An exception of the client is not
    caught anywhere in the source. *)
Definition chat (caller : Caller) (request : ChatRequest) : M string :=
  fun w =>
    let (reply, o') := chat_completions_create X (oracle w) request in
    let w' := {| oracle := o'; store := store w;
                 trace := (trace w ++ [OracleCall caller request reply])%list |} in
    match reply with
    | inl msg => (inl (OracleError msg), w')
    | inr content => (inr content, w')
    end.

(** [try: df = conn.cursor().execute(sql).df() / except duckdb.Error as e]:
    the outcome, with the error caught. *)
Definition try_execute (statement : string) : M (string + DataFrame X) :=
  fun w =>
    let (result, s') := cursor_execute X (store w) statement in
    (inr result,
     {| oracle := oracle w; store := s';
        trace := (trace w ++ [StoreExecute statement result])%list |}).

(** llm.py *)
Definition generate_sql (question : string) : M string :=
  content <- chat In_generate_sql (generate_sql_request question) ;;
  ret (clean_generated_sql content).

Definition answer_prompt (question sql : string) (rows : list (Row X)) : string :=
  let total_rows := List.length rows in
  let rows_for_llm := firstn MAX_ROWS_FOR_ANSWER rows in
  let rows_json := json_dumps X rows_for_llm in
  let truncation_note :=
    if (MAX_ROWS_FOR_ANSWER <? total_rows)%nat
    then truncation_note_text total_rows
    else "" in
  strip (answer_prompt_template question sql rows_json truncation_note).

Definition answer_request (question sql : string) (rows : list (Row X)) : ChatRequest :=
  {| model := ANSWER_MODEL;
     prompt := answer_prompt question sql rows;
     temperature := QArith_base.Qmake 3%Z 10%positive |}.

Definition generate_answer_text (question sql : string) (rows : list (Row X))
  : M string :=
  content <- chat In_generate_answer_text (answer_request question sql rows) ;;
  ret (strip content).

(** main.py *)
Definition repair_sql (question bad_sql error_msg : string) : M string :=
  content <- chat In_repair_sql (repair_sql_request question bad_sql error_msg) ;;
  ret (clean_repaired_sql content).

Definition ask (req : AskRequest) : M (AskResponse X) :=
  let question := strip (req_question req) in
  if String.eqb question "" then raise (HTTPException 400 "Empty question") else
  sql <- generate_sql question ;;
  if negb (sql_safe sql) then raise (HTTPException 400 "Unsafe SQL") else
  first <- try_execute sql ;;
  sql_df <-
    match first with
    | inr df => ret (sql, df)
    | inl e =>
        sql <- repair_sql question sql e ;;
        second <- try_execute sql ;;
        match second with
        | inr df => ret (sql, df)
        | inl e2 => raise (HTTPException 400 ("Error executing SQL: " ++ e2))
        end
    end ;;
  let sql := fst sql_df in
  let rows := df_to_clean_dict X (snd sql_df) in
  answer <-
    (if (25 <? List.length rows)%nat
     then
       let sample_rows := firstn 5 rows in
       answer <- generate_answer_text question sql sample_rows ;;
       ret (answer ++ found_note (List.length rows))
     else generate_answer_text question sql rows) ;;
  ret {| question := question; sql := sql; answer := answer; rows := rows |}.

End Pipeline.

Arguments ret {X A} _ _.
Arguments raise {X A} _ _.
Arguments bind {X A B} _ _ _.

(** ** Counting interactions *)

Definition Caller_eqb (a b : Caller) : bool :=
  match a, b with
  | In_generate_sql, In_generate_sql => true
  | In_repair_sql, In_repair_sql => true
  | In_generate_answer_text, In_generate_answer_text => true
  | _, _ => false
  end.

Definition is_call_from {X : Externals} (c : Caller) (ev : Event X) : bool :=
  match ev with
  | OracleCall c' _ _ => Caller_eqb c c'
  | StoreExecute _ _ => false
  end.

Definition is_oracle_call {X : Externals} (ev : Event X) : bool :=
  match ev with
  | OracleCall _ _ _ => true
  | StoreExecute _ _ => false
  end.

Definition calls_from {X : Externals} (c : Caller) (t : list (Event X)) : nat :=
  List.length (filter (is_call_from c) t).

Definition oracle_calls {X : Externals} (t : list (Event X)) : nat :=
  List.length (filter is_oracle_call t).

(** The oracle's reply is a function of the request alone. *)
Definition oracle_is_function (X : Externals) : Prop :=
  forall (o o' : OracleState X) (request : ChatRequest),
    fst (chat_completions_create X o request) =
    fst (chat_completions_create X o' request).

(** ** Vocabulary of the statements *)

Definition not_from_summarizer {X : Externals} (ev : Event X) : Prop :=
  match ev with
  | OracleCall In_generate_answer_text _ _ => False
  | _ => True
  end.

(** [emits c g r a]: whatever the world, [c] only appends to the trace,
    and what it appends holds at most [g] generation calls, [r] repair
    calls and [a] summarizer calls. *)
Definition emits {X : Externals} {A : Type} (c : M X A) (g r a : nat) : Prop :=
  forall w, exists evs,
    trace (snd (c w)) = (trace w ++ evs)%list /\
    calls_from In_generate_sql evs <= g /\
    calls_from In_repair_sql evs <= r /\
    calls_from In_generate_answer_text evs <= a.

Definition same_store {X : Externals} (w1 w2 : World X) : Prop :=
  store w1 = store w2.

(** [repeatable c]: from worlds with the same store, [c] ends with the same
    outcome and again with the same store. *)
Definition repeatable {X : Externals} {A : Type} (c : M X A) : Prop :=
  forall w1 w2, same_store w1 w2 ->
    fst (c w1) = fst (c w2) /\ same_store (snd (c w1)) (snd (c w2)).

(** What stands before the rows in the prompt, and what stands after the
    truncation note. *)
Definition answer_prompt_head (question sql : string) : string :=
  "User question:" ++ nl ++ question ++ nl ++ nl ++
  "SQL used:" ++ nl ++ sql ++ nl ++ nl ++
  DOMAIN_CONTEXT ++ nl ++ nl ++
  "Result rows (JSON, up to 120 rows):" ++ nl.

Definition answer_prompt_tail : string :=
  nl ++
  join nl
    [ "";
      "Instructions:";
      "- Base your answer ONLY on the information in the result rows.";
      "- Explain the answer clearly in 1–3 short paragraphs.";
      "- Highlight key numbers (vote shares, total votes, seats won, margins, etc.) when relevant.";
      "- If the result is a list (e.g., top candidates or constituencies), summarise patterns";
      "  such as which parties or alliances dominate.";
      "- If there are no rows, say that no matching data was found.";
      "- Do NOT invent data that is not present in the rows.";
      "- STRICTLY use the party abbreviations defined in the CONTEXT (e.g., JSP is Jan Suraaj Party)." ].

(** ** main.py: the constituency search route *)

(** What a route that does not catch the store's errors ends with. *)
Inductive Outcome (A : Type) :=
| Returned (value : A)
| Raised_duckdb_Error (message : string).
Arguments Returned {A} _.
Arguments Raised_duckdb_Error {A} _.

(** The f-string of [constituency_search]. *)
Definition constituency_search_statement (q_clean : string) : string :=
  "SELECT DISTINCT ac_no, ac_name FROM candidates WHERE ac_name ILIKE '%" ++
  q_clean ++ "%' OR CAST(ac_no AS TEXT) = '" ++ q_clean ++ "' LIMIT 10".

Definition constituency_search {X : Externals} (q : string) (w : World X)
  : Outcome (list (Row X)) * World X :=
  let q_clean := strip (replace q "'" "") in
  if String.eqb q_clean "" then (Returned [], w) else
  let statement := constituency_search_statement q_clean in
  let (result, s') := cursor_execute X (store w) statement in
  let w' := {| oracle := oracle w; store := s';
               trace := (trace w ++ [StoreExecute statement result])%list |} in
  match result with
  | inl msg => (Raised_duckdb_Error msg, w')
  | inr df => (Returned (df_to_clean_dict X df), w')
  end.

(** Number of occurrences of a character. *)
Fixpoint count_char (c : ascii) (s : string) : nat :=
  match s with
  | EmptyString => 0
  | String d s' => (if Ascii.eqb c d then 1 else 0) + count_char c s'
  end.

(** ** The paths of [ask]

    The rows [ask] shows to the summarizer, and the shapes a run can have:
    the interactions it appends to the trace, with what it ends in. *)

Definition rows_shown {A : Type} (all_rows : list A) : list A :=
  if (25 <? List.length all_rows)%nat then firstn 5 all_rows else all_rows.

Inductive summarize_run {X : Externals} (q statement : string)
    (all_rows : list (Row X)) : list (Event X) -> Exn + AskResponse X -> Prop :=
| Summarize_raises : forall msg,
    summarize_run q statement all_rows
      [OracleCall In_generate_answer_text
         (answer_request X q statement (rows_shown all_rows)) (inl msg)]
      (inl (OracleError msg))
| Summarize_returns : forall content text,
    text = (if (25 <? List.length all_rows)%nat
            then strip content ++ found_note (List.length all_rows)
            else strip content) ->
    summarize_run q statement all_rows
      [OracleCall In_generate_answer_text
         (answer_request X q statement (rows_shown all_rows)) (inr content)]
      (inr {| question := q; sql := statement; answer := text; rows := all_rows |}).

Inductive ask_run {X : Externals} (q : string)
  : list (Event X) -> Exn + AskResponse X -> Prop :=
| Run_empty_question :
    q = "" ->
    ask_run q [] (inl (HTTPException 400 "Empty question"))
| Run_generation_raises : forall msg,
    q <> "" ->
    ask_run q
      [OracleCall In_generate_sql (generate_sql_request q) (inl msg)]
      (inl (OracleError msg))
| Run_unsafe : forall c0,
    q <> "" ->
    sql_safe (clean_generated_sql c0) = false ->
    ask_run q
      [OracleCall In_generate_sql (generate_sql_request q) (inr c0)]
      (inl (HTTPException 400 "Unsafe SQL"))
| Run_first_attempt : forall c0 df evs out,
    q <> "" ->
    sql_safe (clean_generated_sql c0) = true ->
    summarize_run q (clean_generated_sql c0) (df_to_clean_dict X df) evs out ->
    ask_run q
      (OracleCall In_generate_sql (generate_sql_request q) (inr c0)
       :: StoreExecute (clean_generated_sql c0) (inr df)
       :: evs)
      out
| Run_repair_raises : forall c0 e1 msg,
    q <> "" ->
    sql_safe (clean_generated_sql c0) = true ->
    ask_run q
      [OracleCall In_generate_sql (generate_sql_request q) (inr c0);
       StoreExecute (clean_generated_sql c0) (inl e1);
       OracleCall In_repair_sql
         (repair_sql_request q (clean_generated_sql c0) e1) (inl msg)]
      (inl (OracleError msg))
| Run_second_fails : forall c0 e1 c1 e2,
    q <> "" ->
    sql_safe (clean_generated_sql c0) = true ->
    ask_run q
      [OracleCall In_generate_sql (generate_sql_request q) (inr c0);
       StoreExecute (clean_generated_sql c0) (inl e1);
       OracleCall In_repair_sql
         (repair_sql_request q (clean_generated_sql c0) e1) (inr c1);
       StoreExecute (clean_repaired_sql c1) (inl e2)]
      (inl (HTTPException 400 ("Error executing SQL: " ++ e2)))
| Run_repaired : forall c0 e1 c1 df evs out,
    q <> "" ->
    sql_safe (clean_generated_sql c0) = true ->
    summarize_run q (clean_repaired_sql c1) (df_to_clean_dict X df) evs out ->
    ask_run q
      (OracleCall In_generate_sql (generate_sql_request q) (inr c0)
       :: StoreExecute (clean_generated_sql c0) (inl e1)
       :: OracleCall In_repair_sql
            (repair_sql_request q (clean_generated_sql c0) e1) (inr c1)
       :: StoreExecute (clean_repaired_sql c1) (inr df)
       :: evs)
      out.

(** The statements a list of interactions hands to the store, in order. *)
Fixpoint executed_statements {X : Externals} (evs : list (Event X)) : list string :=
  match evs with
  | [] => []
  | StoreExecute statement _ :: rest => statement :: executed_statements rest
  | OracleCall _ _ _ :: rest => executed_statements rest
  end.

(** The last interaction of a list, if any. *)
Definition last_event {X : Externals} (evs : list (Event X)) : option (Event X) :=
  List.last (map Some evs) None.

(** ** Test doubles

    A scripted oracle answers the n-th call with the n-th entry of a list;
    a table store answers a statement by looking it up, and fails with a
    catalog error otherwise.  Rows are numbers. *)

Definition scripted_oracle (script : list (string + string)) (request : ChatRequest)
  : (string + string) * list (string + string) :=
  match script with
  | [] => (inl "no reply left", [])
  | reply :: rest => (reply, rest)
  end.

Definition table_store (tables : list (string * list nat)) (_ : unit)
    (statement : string) : (string + list nat) * unit :=
  match find (fun entry => String.eqb (fst entry) statement) tables with
  | Some entry => (inr (snd entry), tt)
  | None => (inl ("Catalog Error: " ++ statement), tt)
  end.

Definition demo (tables : list (string * list nat)) : Externals :=
  {| OracleState := list (string + string);
     StoreState := unit;
     DataFrame := list nat;
     Row := nat;
     chat_completions_create := scripted_oracle;
     cursor_execute := table_store tables;
     df_to_clean_dict := fun df => df;
     json_dumps := fun rows => "[" ++ join ", " (map str_of_nat rows) ++ "]" |}.

Definition demo_world (tables : list (string * list nat))
    (script : list (string + string)) : World (demo tables) :=
  {| oracle := script : OracleState (demo tables); store := tt; trace := [] |}.

Definition pure_oracle (calls : nat) (request : ChatRequest)
  : (string + string) * nat :=
  (inr (if startswith (prompt request) "You are a data analyst"
        then "select n from t"
        else "A summary."),
   S calls).

(** The same store behind an oracle that answers by the prompt and counts
    its calls. *)
Definition pure_demo (tables : list (string * list nat)) : Externals :=
  {| OracleState := nat;
     StoreState := unit;
     DataFrame := list nat;
     Row := nat;
     chat_completions_create := pure_oracle;
     cursor_execute := table_store tables;
     df_to_clean_dict := fun df => df;
     json_dumps := fun rows => "[" ++ join ", " (map str_of_nat rows) ++ "]" |}.

Definition response_of {X : Externals} (outcome : Exn + AskResponse X)
  : AskResponse X :=
  match outcome with
  | inr resp => resp
  | inl _ => {| question := ""; sql := ""; answer := ""; rows := [] |}
  end.

Definition drop_tables : list (string * list nat) :=
  [("drop table candidates", [])].
Definition drop_script : list (string + string) :=
  [inr "select winner from results"; inr "drop table candidates"; inr "Done."].

Definition small_tables : list (string * list nat) :=
  [("select n from t", [1; 2; 3])].
Definition repair_script : list (string + string) :=
  [inr "select x"; inr "select n from t"; inr " Three rows. "].

Definition long_tables : list (string * list nat) :=
  [("select n from t", seq 1 30)].
Definition long_script : list (string + string) :=
  [inr "select n from t"; inr "Many rows."].
Definition long_run :=
  ask (demo long_tables) {| req_question := "list the numbers" |}
    (demo_world long_tables long_script).

Definition fenced_reply : string :=
  "```sql" ++ nl ++ "SELECT sql_mode FROM t" ++ nl ++ "```".

Definition mode_tables : list (string * list nat) :=
  [("SELECT _mode FROM t", [7])].
Definition fenced_script : list (string + string) :=
  [inr "select x"; inr fenced_reply; inr "One row."].

Definition short_script : list (string + string) :=
  [inr "select n from t"; inr " Three rows. "].
Definition short_run :=
  ask (demo small_tables) {| req_question := "how many?" |}
    (demo_world small_tables short_script).

Definition failing_script : list (string + string) :=
  [inr "select x"; inr "select y"].
Definition failing_run :=
  ask (demo []) {| req_question := "who won?" |} (demo_world [] failing_script).

(** * Facts *)

Example sql_safe_select : sql_safe "  SELECT * FROM candidates LIMIT 5 " = true.
Proof. reflexivity. Qed.

Example sql_safe_with : sql_safe "WITH t AS (SELECT 1) SELECT * FROM t" = true.
Proof. reflexivity. Qed.

Example sql_safe_drop : sql_safe "DROP TABLE candidates" = false.
Proof. reflexivity. Qed.

Example sql_safe_select_updated : sql_safe "select last_updated from t" = false.
Proof. reflexivity. Qed.

Example strip_example : strip (nl ++ "  a b " ++ nl) = "a b".
Proof. reflexivity. Qed.

Example replace_example : replace "ssqlql sql" "sql" "" = "sql ".
Proof. reflexivity. Qed.

Example str_of_nat_30 : str_of_nat 30 = "30".
Proof. reflexivity. Qed.

Example endswith_example : endswith "abc```" "```" = true /\ drop_last 3 "abc```" = "abc".
Proof. split; reflexivity. Qed.

(** ** Facts about the string built-ins *)

Lemma append_nil_r : forall s : string, s ++ "" = s.
Proof. induction s as [|c s IH]; simpl; [reflexivity | now rewrite IH]. Qed.

Lemma append_assoc : forall a b c : string, (a ++ b) ++ c = a ++ (b ++ c).
Proof. induction a as [|x a IH]; intros; simpl; [reflexivity | now rewrite IH]. Qed.

Lemma length_append : forall a b : string,
  String.length (a ++ b) = String.length a + String.length b.
Proof. induction a as [|x a IH]; intros; simpl; [reflexivity | now rewrite IH]. Qed.

Lemma prefix_StartsWith : forall p s, prefix p s = true <-> StartsWith s p.
Proof.
  unfold StartsWith.
  induction p as [|a p IH]; intros s.
  - destruct s; simpl; split; intros _; eauto.
  - destruct s as [|b s]; simpl.
    + split; [discriminate | intros [rest H]; discriminate].
    + destruct (ascii_dec a b) as [->|Hab].
      * rewrite IH. split; intros [rest H]; exists rest.
        -- now rewrite H.
        -- now inversion H.
      * split; [discriminate | intros [rest H]; inversion H; congruence].
Qed.

Lemma contains_cons : forall needle c s,
  contains needle (String c s) = prefix needle (String c s) || contains needle s.
Proof. reflexivity. Qed.

Lemma contains_Substring : forall needle s,
  contains needle s = true <-> Substring needle s.
Proof.
  unfold Substring.
  intros needle s; induction s as [|c s IH].
  - change (contains needle "") with (prefix needle "" || false).
    rewrite orb_false_r, prefix_StartsWith. split.
    + intros [rest H]. exists "", rest. exact H.
    + intros [pre [post H]]. destruct pre; [|discriminate].
      exists post. exact H.
  - rewrite contains_cons, orb_true_iff, IH, prefix_StartsWith. split.
    + intros [[rest H] | [pre [post H]]].
      * exists "", rest. exact H.
      * exists (String c pre), post. simpl. now rewrite H.
    + intros [pre [post H]]. destruct pre as [|d pre].
      * left. exists post. exact H.
      * right. exists pre, post. simpl in H. now inversion H.
Qed.

Lemma contains_false_Substring : forall needle s,
  contains needle s = false <-> ~ Substring needle s.
Proof.
  intros needle s. rewrite <- contains_Substring.
  destruct (contains needle s); split; intros H; congruence.
Qed.

(** *** Stripping *)

Lemma lstrip_by_spec : forall (p : ascii -> bool) (s : string),
  exists l, s = l ++ lstrip_by p s /\ forall_chars p l = true /\
            (forall c, head_char (lstrip_by p s) = Some c -> p c = false).
Proof.
  intros p s; induction s as [|c s [l [E [Hl Hh]]]].
  - exists "". repeat split. intros c H; discriminate.
  - cbn [lstrip_by]. destruct (p c) eqn:Hc.
    + exists (String c l). cbn. rewrite Hc, Hl, <- E. repeat split. exact Hh.
    + exists "". repeat split. intros d H; inversion H; subst; exact Hc.
Qed.

Lemma rstrip_by_spec : forall (p : ascii -> bool) (s : string),
  exists r, s = rstrip_by p s ++ r /\ forall_chars p r = true /\
            (forall c, last_char (rstrip_by p s) = Some c -> p c = false).
Proof.
  intros p s; induction s as [|c s [r [E [Hr Hl]]]].
  - exists "". repeat split. intros c H; discriminate.
  - cbn [rstrip_by]. destruct (rstrip_by p s) as [|d t] eqn:Es.
    + cbn [append] in E. subst r. destruct (p c) eqn:Hc.
      * exists (String c s). cbn. rewrite Hc, Hr. repeat split.
        intros d H; discriminate.
      * exists s. repeat split; [exact Hr|].
        intros d H; inversion H; subst; exact Hc.
    + exists r. cbn [append]. rewrite E. repeat split; [exact Hr|].
      intros e H. apply Hl. exact H.
Qed.

Lemma rstrip_by_head : forall (p : ascii -> bool) (s : string) (c : ascii),
  head_char (rstrip_by p s) = Some c -> head_char s = Some c.
Proof.
  intros p [|d s] c; cbn [rstrip_by]; [discriminate|].
  destruct (rstrip_by p s); [destruct (p d)|]; cbn; intros H;
    try discriminate; exact H.
Qed.

Lemma strip_by_spec : forall (p : ascii -> bool) (s : string),
  exists l r,
    s = l ++ strip_by p s ++ r /\
    forall_chars p l = true /\ forall_chars p r = true /\
    (forall c, head_char (strip_by p s) = Some c -> p c = false) /\
    (forall c, last_char (strip_by p s) = Some c -> p c = false).
Proof.
  intros p s. unfold strip_by.
  destruct (lstrip_by_spec p s) as [l [El [Hl Hh]]].
  destruct (rstrip_by_spec p (lstrip_by p s)) as [r [Er [Hr Hlast]]].
  exists l, r. rewrite <- Er. repeat split; try assumption.
  intros c H. apply Hh. eapply rstrip_by_head. exact H.
Qed.

Lemma lstrip_by_app_kept : forall (p : ascii -> bool) (s z : string),
  (exists c, head_char s = Some c /\ p c = false) ->
  lstrip_by p (s ++ z) = s ++ z.
Proof.
  intros p [|d s] z [c [H Hc]]; [discriminate|].
  inversion H; subst. cbn. now rewrite Hc.
Qed.

Lemma rstrip_by_app : forall (p : ascii -> bool) (a b : string),
  rstrip_by p b <> "" -> rstrip_by p (a ++ b) = a ++ rstrip_by p b.
Proof.
  intros p a b Hb; induction a as [|c a IH]; [reflexivity|].
  cbn [append rstrip_by]. rewrite IH.
  destruct (a ++ rstrip_by p b) as [|d t] eqn:E; [|reflexivity].
  destruct a; [cbn in E; contradiction | discriminate].
Qed.

(** *** Slicing and replacing *)

Lemma take_drop : forall (n : nat) (s : string), take n s ++ drop n s = s.
Proof.
  induction n as [|n IH]; intros [|c s]; cbn; try reflexivity.
  now rewrite IH.
Qed.

Lemma length_take : forall (n : nat) (s : string),
  n <= String.length s -> String.length (take n s) = n.
Proof.
  induction n as [|n IH]; intros [|c s] H; cbn in *; try reflexivity; try lia.
  rewrite IH; [reflexivity | lia].
Qed.

Lemma prefix_app_shorter : forall p u v : string,
  prefix p (u ++ v) = true -> String.length p <= String.length u ->
  prefix p u = true.
Proof.
  induction p as [|a p IH]; intros u v H Hlen.
  - destruct u; reflexivity.
  - destruct u as [|b u]; [cbn in Hlen; lia|].
    cbn in *. destruct (ascii_dec a b); [|discriminate].
    apply (IH u v H). lia.
Qed.

Lemma replace_from_skip : forall (old new p s : string),
  replace_from (String.length p) old new (p ++ s) = replace_from 0 old new s.
Proof. intros old new p s; induction p as [|c p IH]; [reflexivity | exact IH]. Qed.

(** A text without [old] is returned as it is. *)
Lemma replace_absent : forall (old new s : string),
  contains old s = false -> replace s old new = s.
Proof.
  unfold replace. intros old new s; induction s as [|c s IH]; intros H;
    [reflexivity|].
  rewrite contains_cons in H. apply orb_false_iff in H. destruct H as [Hp Hc].
  cbn [replace_from]. rewrite Hp, IH; [reflexivity | exact Hc].
Qed.

(** The leftmost occurrence of [old] is replaced, and replacing goes on
    behind it. *)
Lemma replace_leftmost : forall (old new a b : string),
  old <> "" ->
  contains old (a ++ take (String.length old - 1) old) = false ->
  replace (a ++ old ++ b) old new = a ++ new ++ replace b old new.
Proof.
  unfold replace. intros old new a b Hold; induction a as [|x a IH]; intros H.
  - destruct old as [|c old]; [contradiction|].
    cbn [append replace_from].
    assert (E : prefix (String c old) (String c (old ++ b)) = true)
      by (apply prefix_StartsWith; exists b; reflexivity).
    rewrite E. cbn [String.length]. rewrite Nat.sub_succ, Nat.sub_0_r.
    now rewrite replace_from_skip.
  - cbn [append] in H. rewrite contains_cons in H.
    apply orb_false_iff in H. destruct H as [Hp Hc].
    cbn [append replace_from].
    destruct (prefix old (String x (a ++ old ++ b))) eqn:E.
    + exfalso.
      assert (Hsplit : String x (a ++ old ++ b) =
                       String x (a ++ take (String.length old - 1) old) ++
                       (drop (String.length old - 1) old ++ b)).
      { cbn [append]. rewrite append_assoc.
        rewrite <- (append_assoc (take (String.length old - 1) old) _ b).
        now rewrite take_drop. }
      rewrite Hsplit in E. apply prefix_app_shorter in E; [congruence|].
      cbn [String.length]. rewrite length_append, length_take; lia.
    + rewrite IH; [reflexivity | exact Hc].
Qed.

(** C2.  The validator accepts a candidate query exactly when its trimmed,
    lower-cased text starts with [select] or [with] and holds none of the
    seven denylisted keywords as a substring; in particular a query whose
    text holds a denylisted keyword anywhere is rejected, whatever it
    starts with. *)
Theorem sql_safe_iff_validator_accepts : forall query,
  (sql_safe query = true <-> validator_accepts query) /\
  (forall kw, In kw bad -> Substring kw (lower (strip query)) ->
     sql_safe query = false).
Proof.
  intros query. unfold sql_safe, validator_accepts, startswith.
  set (text := lower (strip query)).
  assert (Hbad : existsb (fun b => contains b text) bad = false <->
                 forall kw, In kw bad -> ~ Substring kw text).
  { split.
    - intros H kw Hin Hsub.
      assert (E : existsb (fun b => contains b text) bad = true).
      { apply existsb_exists. exists kw. split; [exact Hin|].
        now apply contains_Substring. }
      congruence.
    - intros H. destruct (existsb (fun b => contains b text) bad) eqn:E; [|reflexivity].
      apply existsb_exists in E. destruct E as [kw [Hin Hc]].
      exfalso. apply (H kw Hin). now apply contains_Substring. }
  split; [split|].
  - intros H.
    destruct (prefix "select" text) eqn:Es; destruct (prefix "with" text) eqn:Ew;
      simpl in H; try discriminate;
      (split; [| apply Hbad; now apply negb_true_iff in H]).
    + left. now apply prefix_StartsWith.
    + left. now apply prefix_StartsWith.
    + right. now apply prefix_StartsWith.
  - intros [Hstart Hnone].
    apply Hbad in Hnone. fold bad in Hnone. rewrite Hnone.
    destruct Hstart as [Hs | Hw].
    + apply prefix_StartsWith in Hs. rewrite Hs. reflexivity.
    + apply prefix_StartsWith in Hw. rewrite Hw.
      destruct (prefix "select" text); reflexivity.
  - intros kw Hin Hsub.
    assert (E : existsb (fun b => contains b text) bad = true).
    { apply existsb_exists. exists kw. split; [exact Hin|].
      now apply contains_Substring. }
    rewrite E. destruct (negb (prefix "select" text) && negb (prefix "with" text));
      reflexivity.
Qed.

(** A query that begins with [select] and mentions [update] inside a column
    name is rejected; the same query without the keyword is accepted. *)
Lemma sql_safe_iff_validator_accepts_witness :
  sql_safe "SELECT last_updated FROM t" = false /\
  validator_accepts " Select ac_name From candidates ".
Proof.
  split.
  - apply (proj2 (sql_safe_iff_validator_accepts "SELECT last_updated FROM t") "update").
    + simpl. tauto.
    + exists "select last_", "d from t". reflexivity.
  - apply (proj1 (sql_safe_iff_validator_accepts " Select ac_name From candidates ")).
    reflexivity.
Defined.

(** ** The shape of the summarizer's prompt *)

Lemma lstrip_nl : forall s : string,
  lstrip_by isspace (nl ++ s) = lstrip_by isspace s.
Proof. reflexivity. Qed.

Lemma answer_prompt_shape : forall question sql rows_json truncation_note : string,
  strip (answer_prompt_template question sql rows_json truncation_note) =
  answer_prompt_head question sql ++ rows_json ++ nl ++ truncation_note ++
  answer_prompt_tail.
Proof.
  intros q statement rj note.
  assert (E : answer_prompt_template q statement rj note =
              nl ++ (answer_prompt_head q statement ++ rj ++ nl ++ note) ++
              (answer_prompt_tail ++ nl)).
  { unfold answer_prompt_template, answer_prompt_head. cbn [join].
    repeat rewrite append_assoc. reflexivity. }
  rewrite E. unfold strip, strip_by. rewrite lstrip_nl.
  rewrite lstrip_by_app_kept
    by (exists "U"%char; split; reflexivity).
  rewrite rstrip_by_app by (vm_compute; discriminate).
  replace (rstrip_by isspace (answer_prompt_tail ++ nl)) with answer_prompt_tail
    by (vm_compute; reflexivity).
  repeat rewrite append_assoc. reflexivity.
Qed.

(** ** Running the handler step by step *)

Section PipelineFacts.

Variable X : Externals.

Ltac unfold_handler :=
  unfold ask, generate_sql, repair_sql, generate_answer_text, chat,
    try_execute, bind, ret, raise.

(** C7.  A question that is empty after trimming is refused with status
    400 before anything else happens: the oracle state, the store state and
    the interaction trace are those the request started with. *)
Theorem ask_rejects_empty_question : forall (req : AskRequest) (w : World X),
  strip (req_question req) = "" ->
  ask X req w = (inl (HTTPException 400 "Empty question"), w).
Proof.
  intros req w H. unfold ask. rewrite H. reflexivity.
Qed.

(** C4.  When the generated query fails and the single repaired query
    fails too, the request ends with status 400 and a detail that holds the
    second diagnostic; the interaction consists of the generation call, the
    first execution, one repair call and the second execution, and nothing
    more. *)
Theorem ask_fails_after_failed_repair :
  forall (req : AskRequest) (w : World X) c0 o1 e1 s1 c1 o2 e2 s2,
  let q := strip (req_question req) in
  let sql0 := clean_generated_sql c0 in
  let sql1 := clean_repaired_sql c1 in
  q <> "" ->
  chat_completions_create X (oracle w) (generate_sql_request q) = (inr c0, o1) ->
  sql_safe sql0 = true ->
  cursor_execute X (store w) sql0 = (inl e1, s1) ->
  chat_completions_create X o1 (repair_sql_request q sql0 e1) = (inr c1, o2) ->
  cursor_execute X s1 sql1 = (inl e2, s2) ->
  ask X req w =
    (inl (HTTPException 400 ("Error executing SQL: " ++ e2)),
     {| oracle := o2; store := s2;
        trace := (trace w ++
                  [OracleCall In_generate_sql (generate_sql_request q) (inr c0);
                   StoreExecute sql0 (inl e1);
                   OracleCall In_repair_sql (repair_sql_request q sql0 e1) (inr c1);
                   StoreExecute sql1 (inl e2)])%list |}) /\
  Substring e2 ("Error executing SQL: " ++ e2).
Proof.
  intros req w c0 o1 e1 s1 c1 o2 e2 s2 q sql0 sql1 Hq Hgen Hsafe Hex1 Hrep Hex2.
  split; [| exists "Error executing SQL: ", ""; now rewrite append_nil_r ].
  unfold_handler. fold q.
  destruct (String.eqb_spec q ""); [contradiction|].
  rewrite Hgen. fold sql0. rewrite Hsafe. cbn [negb oracle store trace].
  rewrite Hex1. cbn [oracle store trace].
  rewrite Hrep. fold sql1. cbn [oracle store trace].
  rewrite Hex2. cbn [oracle store trace].
  repeat rewrite <- app_assoc. reflexivity.
Qed.

(** C5.  When the generated query fails once and the repaired query runs,
    the response carries the repaired query in its [sql] field, together
    with the rows of the repaired query's result. *)
Theorem ask_returns_repaired_sql :
  forall (req : AskRequest) (w : World X) c0 o1 e1 s1 c1 o2 df s2 c2 o3,
  let q := strip (req_question req) in
  let sql0 := clean_generated_sql c0 in
  let sql1 := clean_repaired_sql c1 in
  let all_rows := df_to_clean_dict X df in
  let shown := if (25 <? List.length all_rows)%nat then firstn 5 all_rows else all_rows in
  q <> "" ->
  chat_completions_create X (oracle w) (generate_sql_request q) = (inr c0, o1) ->
  sql_safe sql0 = true ->
  cursor_execute X (store w) sql0 = (inl e1, s1) ->
  chat_completions_create X o1 (repair_sql_request q sql0 e1) = (inr c1, o2) ->
  cursor_execute X s1 sql1 = (inr df, s2) ->
  chat_completions_create X o2 (answer_request X q sql1 shown) = (inr c2, o3) ->
  exists (resp : AskResponse X) (w' : World X),
    ask X req w = (inr resp, w') /\
    sql resp = sql1 /\
    question resp = q /\
    rows resp = all_rows /\
    trace w' =
      (trace w ++
       [OracleCall In_generate_sql (generate_sql_request q) (inr c0);
        StoreExecute sql0 (inl e1);
        OracleCall In_repair_sql (repair_sql_request q sql0 e1) (inr c1);
        StoreExecute sql1 (inr df);
        OracleCall In_generate_answer_text (answer_request X q sql1 shown) (inr c2)])%list.
Proof.
  intros req w c0 o1 e1 s1 c1 o2 df s2 c2 o3 q sql0 sql1 all_rows shown
    Hq Hgen Hsafe Hex1 Hrep Hex2 Hans.
  unfold_handler. fold q.
  destruct (String.eqb_spec q ""); [contradiction|].
  rewrite Hgen. fold sql0. rewrite Hsafe. cbn [negb oracle store trace].
  rewrite Hex1. cbn [oracle store trace].
  rewrite Hrep. fold sql1. cbn [oracle store trace].
  rewrite Hex2. cbn [oracle store trace fst snd]. fold all_rows.
  subst shown.
  destruct (25 <? List.length all_rows)%nat;
    cbn [oracle store trace]; rewrite Hans; cbn [oracle store trace];
    do 2 eexists; (split; [reflexivity|]); cbn [sql question rows trace];
    repeat split; repeat rewrite <- app_assoc; reflexivity.
Qed.

Lemma firstn_5_length : forall (A : Type) (l : list A),
  25 < List.length l -> List.length (firstn 5 l) = 5.
Proof. intros A l H. rewrite length_firstn. lia. Qed.

Lemma found_note_mentions : forall (text : string) (n : nat),
  Substring (str_of_nat n) (text ++ found_note n) /\
  Substring "refer to the data table for the full list" (text ++ found_note n).
Proof.
  intros text n. unfold found_note. split.
  - exists (text ++ nl ++ nl ++ "**Note:** Found "),
      " results. I've summarized the top few above. Please refer to the data table for the full list.".
    repeat rewrite append_assoc. reflexivity.
  - exists (text ++ nl ++ nl ++ "**Note:** Found " ++ str_of_nat n ++
            " results. I've summarized the top few above. Please "), ".".
    repeat rewrite append_assoc. reflexivity.
Qed.

(** Case analysis on a finished run: split on every test and every reply
    the run went through. *)
Ltac destruct_innermost x :=
  lazymatch x with
  | context [match ?y with _ => _ end] => destruct_innermost y
  | _ => destruct x eqn:?
  end.

Ltac split_run H :=
  repeat (cbn [oracle store trace fst snd negb] in H;
          match type of H with
          | context [match ?x with _ => _ end] =>
              destruct_innermost x; try discriminate H
          end).

(** C3.  Whenever a request succeeds with more than 25 rows, the last two
    interactions are the execution that produced the rows of the response
    and the one summarizer call, whose prompt is built from the first 5
    rows only; the answer is the summarizer's text followed by the note
    that states the total row count and points to the data table; the
    response's [rows] are all rows of the executed query's result. *)
Theorem ask_samples_long_results :
  forall (req : AskRequest) (w w' : World X) (resp : AskResponse X),
  ask X req w = (inr resp, w') ->
  25 < List.length (rows resp) ->
  exists (before : list (Event X)) (df : DataFrame X) (reply : string),
    trace w' =
      (trace w ++ before ++
       [StoreExecute (sql resp) (inr df);
        OracleCall In_generate_answer_text
          (answer_request X (question resp) (sql resp) (firstn 5 (rows resp)))
          (inr reply)])%list /\
    Forall not_from_summarizer before /\
    rows resp = df_to_clean_dict X df /\
    List.length (firstn 5 (rows resp)) = 5 /\
    answer resp = strip reply ++ found_note (List.length (rows resp)) /\
    Substring (str_of_nat (List.length (rows resp))) (answer resp) /\
    Substring "refer to the data table for the full list" (answer resp).
Proof.
  intros req w w' resp H Hlong.
  unfold ask, generate_sql, repair_sql, generate_answer_text, chat,
    try_execute, bind, ret, raise in H.
  split_run H; inversion H; subst; clear H;
    cbn [rows sql question answer] in *;
    try (match goal with
         | E : (25 <? _)%nat = false |- _ => apply Nat.ltb_ge in E; lia
         end).
  - eexists (cons _ (cons _ (cons _ nil))). do 2 eexists. cbn [app].
    repeat rewrite <- app_assoc. cbn [app].
    split; [reflexivity|]. split; [repeat constructor|]. split; [reflexivity|].
    split; [apply firstn_5_length; exact Hlong|]. split; [reflexivity|].
    apply found_note_mentions.
  - eexists (cons _ nil). do 2 eexists. cbn [app].
    repeat rewrite <- app_assoc. cbn [app].
    split; [reflexivity|]. split; [repeat constructor|]. split; [reflexivity|].
    split; [apply firstn_5_length; exact Hlong|]. split; [reflexivity|].
    apply found_note_mentions.
Qed.

(** *** A budget of oracle calls, composed along the handler *)

Lemma calls_from_app : forall (c : Caller) (t u : list (Event X)),
  calls_from c (t ++ u) = calls_from c t + calls_from c u.
Proof. intros. unfold calls_from. now rewrite filter_app, length_app. Qed.

Lemma oracle_calls_by_caller : forall t : list (Event X),
  oracle_calls t =
  calls_from In_generate_sql t + calls_from In_repair_sql t +
  calls_from In_generate_answer_text t.
Proof.
  unfold oracle_calls, calls_from.
  induction t as [|ev t IH]; [reflexivity|].
  destruct ev as [[ | | ] request reply | statement result]; cbn; lia.
Qed.

Lemma emits_ret : forall (A : Type) (x : A) g r a,
  emits (ret x : M X A) g r a.
Proof.
  intros A x g r a w. exists []. cbn. rewrite app_nil_r.
  repeat split; lia.
Qed.

Lemma emits_raise : forall (A : Type) (e : Exn) g r a,
  emits (raise e : M X A) g r a.
Proof.
  intros A e g r a w. exists []. cbn. rewrite app_nil_r.
  repeat split; lia.
Qed.

Lemma emits_bind : forall (A B : Type) (c : M X A) (k : A -> M X B)
    g1 r1 a1 g2 r2 a2 g r a,
  emits c g1 r1 a1 ->
  (forall x, emits (k x) g2 r2 a2) ->
  g1 + g2 <= g -> r1 + r2 <= r -> a1 + a2 <= a ->
  emits (bind c k) g r a.
Proof.
  intros A B c k g1 r1 a1 g2 r2 a2 g r a Hc Hk Hg Hr Ha w.
  unfold bind. destruct (Hc w) as [e1 [T1 [G1 [R1 A1]]]].
  destruct (c w) as [[e|x] w1]; cbn [snd] in *.
  - exists e1. repeat split; [exact T1 | lia | lia | lia].
  - destruct (Hk x w1) as [e2 [T2 [G2 [R2 A2]]]].
    exists (e1 ++ e2)%list. rewrite T2, T1, app_assoc, !calls_from_app.
    repeat split; lia.
Qed.

Lemma emits_try_execute : forall statement g r a,
  emits (try_execute X statement) g r a.
Proof.
  intros statement g r a w. unfold try_execute.
  destruct (cursor_execute X (store w) statement) as [result s'].
  exists [StoreExecute statement result]. cbn. repeat split; lia.
Qed.

Lemma emits_chat : forall caller request,
  emits (chat X caller request)
    (calls_from In_generate_sql [@OracleCall X caller request (inr "")])
    (calls_from In_repair_sql [@OracleCall X caller request (inr "")])
    (calls_from In_generate_answer_text [@OracleCall X caller request (inr "")]).
Proof.
  intros caller request w. unfold chat.
  destruct (chat_completions_create X (oracle w) request) as [reply o'].
  exists [OracleCall caller request reply].
  destruct reply; cbn [snd trace]; repeat split; destruct caller; cbn; lia.
Qed.

Lemma emits_generate_sql : forall q, emits (generate_sql X q) 1 0 0.
Proof.
  intros q. unfold generate_sql.
  eapply emits_bind;
    [apply emits_chat | intros; apply (emits_ret _ _ 0 0 0) | cbn; lia ..].
Qed.

Lemma emits_repair_sql : forall q bad_sql error_msg,
  emits (repair_sql X q bad_sql error_msg) 0 1 0.
Proof.
  intros. unfold repair_sql.
  eapply emits_bind;
    [apply emits_chat | intros; apply (emits_ret _ _ 0 0 0) | cbn; lia ..].
Qed.

Lemma emits_generate_answer_text : forall q statement shown,
  emits (generate_answer_text X q statement shown) 0 0 1.
Proof.
  intros. unfold generate_answer_text.
  eapply emits_bind;
    [apply emits_chat | intros; apply (emits_ret _ _ 0 0 0) | cbn; lia ..].
Qed.

Lemma emits_ask : forall req, emits (ask X req) 1 1 1.
Proof.
  intros req. unfold ask.
  destruct (String.eqb (strip (req_question req)) ""); [apply emits_raise|].
  apply emits_bind with (g1 := 1) (r1 := 0) (a1 := 0) (g2 := 0) (r2 := 1) (a2 := 1);
    [apply emits_generate_sql | intros sql0 | lia ..].
  destruct (negb (sql_safe sql0)); [apply emits_raise|].
  apply emits_bind with (g1 := 0) (r1 := 0) (a1 := 0) (g2 := 0) (r2 := 1) (a2 := 1);
    [apply emits_try_execute | intros first | lia ..].
  apply emits_bind with (g1 := 0) (r1 := 1) (a1 := 0) (g2 := 0) (r2 := 0) (a2 := 1);
    [ | intros sql_df | lia ..].
  - destruct first as [e | df]; [| apply emits_ret].
    apply emits_bind with (g1 := 0) (r1 := 1) (a1 := 0) (g2 := 0) (r2 := 0) (a2 := 0);
      [apply emits_repair_sql | intros sql1 | lia ..].
    apply emits_bind with (g1 := 0) (r1 := 0) (a1 := 0) (g2 := 0) (r2 := 0) (a2 := 0);
      [apply emits_try_execute | intros second | lia ..].
    destruct second; [apply emits_raise | apply emits_ret].
  - cbv zeta.
    apply emits_bind with (g1 := 0) (r1 := 0) (a1 := 1) (g2 := 0) (r2 := 0) (a2 := 0);
      [ | intros; apply emits_ret | lia ..].
    destruct (25 <? _)%nat; [| apply emits_generate_answer_text].
    apply emits_bind with (g1 := 0) (r1 := 0) (a1 := 1) (g2 := 0) (r2 := 0) (a2 := 0);
      [apply emits_generate_answer_text | intros; apply emits_ret | lia ..].
Qed.

(** C6.  Whatever the oracle and the store do, one request appends to the
    trace at most one repair call and at most three oracle calls in all: at
    most one from each of [generate_sql], [repair_sql] and
    [generate_answer_text]. *)
Theorem ask_oracle_round_trips : forall (req : AskRequest) (w : World X),
  exists evs : list (Event X),
    trace (snd (ask X req w)) = (trace w ++ evs)%list /\
    calls_from In_repair_sql evs <= 1 /\
    oracle_calls evs <= 3 /\
    calls_from In_generate_sql evs <= 1 /\
    calls_from In_generate_answer_text evs <= 1.
Proof.
  intros req w. destruct (emits_ask req w) as [evs [T [G [R A]]]].
  exists evs. rewrite oracle_calls_by_caller. repeat split; try assumption; lia.
Qed.

(** *** Two runs side by side *)

Lemma repeatable_ret : forall (A : Type) (x : A), repeatable (ret x : M X A).
Proof. intros A x w1 w2 H. split; [reflexivity | exact H]. Qed.

Lemma repeatable_raise : forall (A : Type) (e : Exn), repeatable (raise e : M X A).
Proof. intros A e w1 w2 H. split; [reflexivity | exact H]. Qed.

Lemma repeatable_bind : forall (A B : Type) (c : M X A) (k : A -> M X B),
  repeatable c -> (forall x, repeatable (k x)) -> repeatable (bind c k).
Proof.
  intros A B c k Hc Hk w1 w2 H. unfold bind.
  destruct (Hc w1 w2 H) as [Hout Hst].
  destruct (c w1) as [[e1|x1] u1], (c w2) as [[e2|x2] u2]; cbn [fst snd] in *;
    try discriminate.
  - inversion Hout; subst. split; [reflexivity | exact Hst].
  - inversion Hout; subst. apply Hk. exact Hst.
Qed.

Lemma repeatable_try_execute : forall statement, repeatable (try_execute X statement).
Proof.
  intros statement w1 w2 H. unfold try_execute, same_store in *. rewrite H.
  destruct (cursor_execute X (store w2) statement) as [result s'].
  split; reflexivity.
Qed.

Section Determinism.

Hypothesis oracle_pure : oracle_is_function X.

Lemma repeatable_chat : forall caller request, repeatable (chat X caller request).
Proof.
  intros caller request w1 w2 H. unfold chat.
  pose proof (oracle_pure (oracle w1) (oracle w2) request) as E.
  destruct (chat_completions_create X (oracle w1) request) as [reply1 o1],
           (chat_completions_create X (oracle w2) request) as [reply2 o2].
  cbn [fst] in E. subst reply2.
  destruct reply1; split; try reflexivity; exact H.
Qed.

Lemma repeatable_ask : forall req, repeatable (ask X req).
Proof.
  intros req. unfold ask, generate_sql, repair_sql, generate_answer_text.
  destruct (String.eqb (strip (req_question req)) ""); [apply repeatable_raise|].
  repeat first
    [ apply repeatable_bind
    | apply repeatable_chat
    | apply repeatable_try_execute
    | apply repeatable_ret
    | apply repeatable_raise
    | match goal with
      | |- forall _, repeatable _ => intro
      | |- repeatable (if ?b then _ else _) => destruct b
      | |- repeatable (match ?x with inl _ => _ | inr _ => _ end) => destruct x
      end
    | progress cbv zeta ].
Qed.

(** C9.  With an oracle whose reply is a function of the request, two runs
    of [ask] on the same request from worlds with the same store end with
    the same outcome; in particular two responses carry the same SQL text
    and the same rows. *)
Theorem ask_is_repeatable : forall (req : AskRequest) (w1 w2 : World X),
  store w1 = store w2 ->
  fst (ask X req w1) = fst (ask X req w2) /\
  (forall r1 r2 : AskResponse X,
     fst (ask X req w1) = inr r1 -> fst (ask X req w2) = inr r2 ->
     sql r1 = sql r2 /\ rows r1 = rows r2).
Proof.
  intros req w1 w2 H. destruct (repeatable_ask req w1 w2 H) as [E _].
  split; [exact E|]. intros r1 r2 H1 H2. rewrite E, H2 in H1.
  inversion H1; subst. split; reflexivity.
Qed.

End Determinism.

(** *** The summarizer's row budget *)

Lemma firstn_all_rows : forall (A : Type) (n : nat) (l : list A),
  List.length l <= n -> firstn n l = l.
Proof. intros A n l H. now apply firstn_all2. Qed.

(** C8.  The summarizer sends one request.  Its prompt is a fixed frame
    around the JSON of the rows and the truncation note: for more than 120
    rows the JSON is that of the first 120 rows and the note says that only
    the first 120 of the total are shown; for at most 120 rows the JSON is
    that of all rows and the note is empty. *)
Theorem generate_answer_text_row_budget : forall q statement : string,
  exists head tail : string,
  forall (shown : list (Row X)) (w : World X),
    (exists reply,
       trace (snd (generate_answer_text X q statement shown w)) =
       (trace w ++
        [OracleCall In_generate_answer_text (answer_request X q statement shown)
           reply])%list) /\
    (120 < List.length shown ->
       prompt (answer_request X q statement shown) =
         head ++ json_dumps X (firstn 120 shown) ++ nl ++
         truncation_note_text (List.length shown) ++ tail /\
       List.length (firstn 120 shown) = 120 /\
       Substring
         ("NOTE: Only the first 120 of " ++ str_of_nat (List.length shown) ++
          " rows are shown in Result rows.")
         (prompt (answer_request X q statement shown))) /\
    (List.length shown <= 120 ->
       prompt (answer_request X q statement shown) =
         head ++ json_dumps X shown ++ nl ++ tail).
Proof.
  intros q statement.
  exists (answer_prompt_head q statement), answer_prompt_tail.
  intros shown w. split; [|split].
  - unfold generate_answer_text, chat, bind, ret.
    destruct (chat_completions_create X (oracle w) _) as [[msg|content] o'];
      eexists; reflexivity.
  - intros Hlong. cbn [prompt answer_request]. unfold answer_prompt.
    rewrite answer_prompt_shape. unfold MAX_ROWS_FOR_ANSWER.
    apply Nat.ltb_lt in Hlong as Hb. rewrite Hb.
    split; [reflexivity|]. split; [rewrite length_firstn; apply Nat.ltb_lt in Hb; lia|].
    exists (answer_prompt_head q statement ++ json_dumps X (firstn 120 shown) ++ nl ++ nl),
      (" Base your answer on these, and you may describe overall patterns without listing every row." ++
       answer_prompt_tail).
    unfold truncation_note_text, MAX_ROWS_FOR_ANSWER.
    repeat rewrite append_assoc. reflexivity.
  - intros Hshort. cbn [prompt answer_request]. unfold answer_prompt.
    rewrite answer_prompt_shape. unfold MAX_ROWS_FOR_ANSWER.
    apply Nat.ltb_ge in Hshort as Hb. rewrite Hb.
    rewrite firstn_all_rows by exact Hshort. reflexivity.
Qed.

(** *** The repair reply *)

Lemma mem_char_backtick : forall ch : ascii,
  mem_char ch "`" = false -> ch <> "`"%char.
Proof.
  intros ch H E. subst ch. discriminate H.
Qed.

(** C10.  [repair_sql] makes one oracle call and returns the cleaned
    reply.  A trimmed reply that does not start with three backticks is
    returned as it is.  One that does is first stripped of the backticks at
    both ends, then every occurrence of [sql] is deleted from the rest,
    left to right, wherever it stands, and the result is trimmed. *)
Theorem repair_sql_strips_fence_and_sql :
  forall (q bad_sql error_msg : string) (w : World X) (c : string)
         (o' : OracleState X),
  chat_completions_create X (oracle w) (repair_sql_request q bad_sql error_msg)
    = (inr c, o') ->
  let fixed := strip c in
  let body := strip_chars "`" fixed in
  repair_sql X q bad_sql error_msg w =
    (inr (clean_repaired_sql c),
     {| oracle := o'; store := store w;
        trace := (trace w ++
                  [OracleCall In_repair_sql
                     (repair_sql_request q bad_sql error_msg) (inr c)])%list |}) /\
  (startswith fixed "```" = false -> clean_repaired_sql c = fixed) /\
  (startswith fixed "```" = true ->
     clean_repaired_sql c = strip (replace body "sql" "") /\
     (exists l r,
        fixed = l ++ body ++ r /\
        forall_chars (fun ch => mem_char ch "`") l = true /\
        forall_chars (fun ch => mem_char ch "`") r = true) /\
     (forall ch, head_char body = Some ch -> ch <> "`"%char) /\
     (forall ch, last_char body = Some ch -> ch <> "`"%char) /\
     (contains "sql" body = false -> replace body "sql" "" = body) /\
     (forall a b, body = a ++ "sql" ++ b -> contains "sql" (a ++ "sq") = false ->
        replace body "sql" "" = a ++ replace b "sql" "")).
Proof.
  intros q bad_sql error_msg w c o' Hrep fixed body.
  split; [|split].
  - unfold repair_sql, chat, bind, ret. rewrite Hrep. reflexivity.
  - intros H. unfold clean_repaired_sql. fold fixed. now rewrite H.
  - intros H. split; [unfold clean_repaired_sql; fold fixed; now rewrite H|].
    destruct (strip_by_spec (fun ch => mem_char ch "`") fixed)
      as [l [r [E [Hl [Hr [Hh Hlast]]]]]].
    fold (strip_chars "`" fixed) in E, Hh, Hlast. fold body in E, Hh, Hlast.
    split; [exists l, r; repeat split; assumption|].
    split; [intros ch Hc; apply mem_char_backtick, Hh, Hc|].
    split; [intros ch Hc; apply mem_char_backtick, Hlast, Hc|].
    split; [apply replace_absent|].
    intros a b Eb Ha. rewrite Eb.
    apply (replace_leftmost "sql" "" a b); [discriminate | exact Ha].
Qed.

End PipelineFacts.

(** ** Concrete runs *)

(** C1.  The repaired query is executed without passing the validator.  The
    oracle answers the generation request with a query that fails and the
    repair request with [drop table candidates]; [sql_safe] rejects that
    text, yet [ask] hands it to the store and, the store accepting it,
    returns it as the response's [sql]. *)
Theorem ask_executes_unvalidated_repair :
  sql_safe "drop table candidates" = false /\
  fst (ask (demo drop_tables) {| req_question := "who won?" |}
         (demo_world drop_tables drop_script)) =
    inr {| question := "who won?"; sql := "drop table candidates";
           answer := "Done."; rows := [] |} /\
  In (@StoreExecute (demo drop_tables) "drop table candidates" (inr []))
     (trace (snd (ask (demo drop_tables) {| req_question := "who won?" |}
                    (demo_world drop_tables drop_script)))).
Proof.
  split; [reflexivity|]. split; [vm_compute; reflexivity|].
  vm_compute. do 3 right. left. reflexivity.
Qed.

(** C7, at a question of blanks and a line break. *)
Lemma ask_rejects_empty_question_witness :
  ask (demo []) {| req_question := "   " ++ nl |} (demo_world [] []) =
  (inl (HTTPException 400 "Empty question"), demo_world [] []).
Proof.
  apply (ask_rejects_empty_question (demo [])). reflexivity.
Defined.

(** C4, at a store that knows no table: both queries fail. *)
Lemma ask_fails_after_failed_repair_witness :
  fst (ask (demo []) {| req_question := "who won?" |}
         (demo_world [] [inr "select x"; inr "select y"])) =
  inl (HTTPException 400 "Error executing SQL: Catalog Error: select y").
Proof.
  rewrite (proj1 (ask_fails_after_failed_repair (demo [])
            {| req_question := "who won?" |}
            (demo_world [] [inr "select x"; inr "select y"])
            "select x" [inr "select y"] "Catalog Error: select x" tt
            "select y" [] "Catalog Error: select y" tt
            ltac:(vm_compute; discriminate) eq_refl eq_refl eq_refl eq_refl eq_refl)).
  reflexivity.
Defined.

(** C5, at a generated query that fails and a repaired one that runs. *)
Lemma ask_returns_repaired_sql_witness :
  sql (response_of (fst (ask (demo small_tables) {| req_question := "how many?" |}
                           (demo_world small_tables repair_script)))) =
  "select n from t".
Proof.
  destruct (ask_returns_repaired_sql (demo small_tables)
              {| req_question := "how many?" |}
              (demo_world small_tables repair_script)
              "select x" (tl repair_script) "Catalog Error: select x" tt
              "select n from t" (tl (tl repair_script)) [1; 2; 3] tt
              " Three rows. " []
              ltac:(vm_compute; discriminate) eq_refl eq_refl eq_refl eq_refl
              eq_refl eq_refl)
    as [resp [w' [Hrun [Hsql _]]]].
  rewrite Hrun. exact Hsql.
Defined.

(** C3, at a result of 30 rows. *)
Lemma ask_samples_long_results_witness :
  Substring "30" (answer (response_of (fst long_run))) /\
  List.length (rows (response_of (fst long_run))) = 30.
Proof.
  destruct (ask_samples_long_results (demo long_tables)
              {| req_question := "list the numbers" |}
              (demo_world long_tables long_script)
              (snd long_run) (response_of (fst long_run)))
    as [before [df [reply [_ [_ [_ [_ [_ [H _]]]]]]]]].
  - vm_compute. reflexivity.
  - apply Nat.ltb_lt. vm_compute. reflexivity.
  - split; [exact H | reflexivity].
Defined.

(** C9, at an oracle that answers by the prompt's first words, from two
    worlds with different oracle states and traces. *)
Lemma ask_is_repeatable_witness :
  fst (ask (pure_demo long_tables) {| req_question := "list the numbers" |}
         {| oracle := 0 : OracleState (pure_demo long_tables); store := tt; trace := [] |}) =
  fst (ask (pure_demo long_tables) {| req_question := "list the numbers" |}
         {| oracle := 7 : OracleState (pure_demo long_tables); store := tt;
            trace := [@StoreExecute (pure_demo long_tables) "select 1" (inl "earlier")] |}).
Proof.
  apply (ask_is_repeatable (pure_demo long_tables)).
  - intros o o' request. reflexivity.
  - reflexivity.
Defined.

(** C10, at a fenced reply whose query names a column [sql_mode]. *)
Lemma repair_sql_strips_fence_and_sql_witness :
  fst (repair_sql (demo []) "q" "select x" "boom"
         (demo_world [] [inr fenced_reply])) =
  inr "SELECT _mode FROM t".
Proof.
  rewrite (proj1 (repair_sql_strips_fence_and_sql (demo []) "q" "select x" "boom"
                    (demo_world [] [inr fenced_reply]) fenced_reply [] eq_refl)).
  reflexivity.
Defined.

(** What [ask] executes after a fenced repair reply is the cleaned text:
    the column [sql_mode] of the reply has become [_mode]. *)
Example ask_executes_cleaned_repair :
  fst (ask (demo mode_tables) {| req_question := "which mode?" |}
         (demo_world mode_tables fenced_script)) =
  inr {| question := "which mode?"; sql := "SELECT _mode FROM t";
         answer := "One row."; rows := [7] : list (Row (demo mode_tables)) |}.
Proof. vm_compute. reflexivity. Qed.

(** * Further facts *)

(** ** More on stripping and lower-casing *)

Lemma lstrip_by_fixed : forall (p : ascii -> bool) (t : string),
  (forall c, head_char t = Some c -> p c = false) -> lstrip_by p t = t.
Proof.
  intros p [|c t] H; [reflexivity|]. cbn. now rewrite (H c eq_refl).
Qed.

Lemma rstrip_by_fixed : forall (p : ascii -> bool) (t : string),
  (forall c, last_char t = Some c -> p c = false) -> rstrip_by p t = t.
Proof.
  intros p t; induction t as [|c t IH]; intros H; [reflexivity|].
  cbn [rstrip_by]. destruct t as [|d t].
  - cbn. now rewrite (H c eq_refl).
  - rewrite IH; [reflexivity | exact H].
Qed.

Lemma strip_by_idem : forall (p : ascii -> bool) (s : string),
  strip_by p (strip_by p s) = strip_by p s.
Proof.
  intros p s. destruct (strip_by_spec p s) as [l [r [_ [_ [_ [Hh Hl]]]]]].
  unfold strip_by at 1. rewrite (lstrip_by_fixed p _ Hh).
  apply rstrip_by_fixed. exact Hl.
Qed.

Lemma lstrip_by_all : forall (p : ascii -> bool) (l s : string),
  forall_chars p l = true -> lstrip_by p (l ++ s) = lstrip_by p s.
Proof.
  intros p l s; induction l as [|c l IH]; intros H; [reflexivity|].
  cbn in *. apply andb_true_iff in H. destruct H as [Hc Hl].
  rewrite Hc. now apply IH.
Qed.

Lemma rstrip_by_all : forall (p : ascii -> bool) (r : string),
  forall_chars p r = true -> rstrip_by p r = "".
Proof.
  intros p r; induction r as [|c r IH]; intros H; [reflexivity|].
  cbn in *. apply andb_true_iff in H. destruct H as [Hc Hr].
  now rewrite (IH Hr), Hc.
Qed.

Lemma rstrip_by_app_all : forall (p : ascii -> bool) (s r : string),
  forall_chars p r = true -> rstrip_by p (s ++ r) = rstrip_by p s.
Proof.
  intros p s r H; induction s as [|c s IH].
  - now apply rstrip_by_all.
  - cbn [append rstrip_by]. now rewrite IH.
Qed.

(** Characters to strip around a text do not change what is left. *)
Lemma strip_by_margins : forall (p : ascii -> bool) (l s r : string),
  forall_chars p l = true -> forall_chars p r = true ->
  strip_by p (l ++ s ++ r) = strip_by p s.
Proof.
  intros p l s r Hl Hr. unfold strip_by. rewrite (lstrip_by_all p l _ Hl).
  induction s as [|c s IH].
  - cbn [append]. rewrite <- (append_nil_r r), (lstrip_by_all p r "" Hr).
    reflexivity.
  - cbn [append lstrip_by]. destruct (p c); [exact IH|].
    change (String c (s ++ r)) with (String c s ++ r).
    now apply rstrip_by_app_all.
Qed.

Lemma isspace_lower_char : forall c : ascii, isspace (lower_char c) = isspace c.
Proof. intros [[] [] [] [] [] [] [] []]; reflexivity. Qed.

Lemma lower_char_idem : forall c : ascii, lower_char (lower_char c) = lower_char c.
Proof. intros [[] [] [] [] [] [] [] []]; reflexivity. Qed.

Lemma lower_idem : forall s : string, lower (lower s) = lower s.
Proof.
  induction s as [|c s IH]; [reflexivity|].
  cbn [lower]. now rewrite lower_char_idem, IH.
Qed.

Lemma lower_lstrip : forall s : string,
  lower (lstrip_by isspace s) = lstrip_by isspace (lower s).
Proof.
  induction s as [|c s IH]; [reflexivity|].
  cbn [lower lstrip_by]. rewrite isspace_lower_char.
  destruct (isspace c); [exact IH | reflexivity].
Qed.

Lemma lower_rstrip : forall s : string,
  lower (rstrip_by isspace s) = rstrip_by isspace (lower s).
Proof.
  induction s as [|c s IH]; [reflexivity|].
  cbn [lower rstrip_by]. rewrite <- IH, isspace_lower_char.
  destruct (rstrip_by isspace s); [destruct (isspace c)|]; reflexivity.
Qed.

Lemma lower_strip : forall s : string, lower (strip s) = strip (lower s).
Proof.
  intros s. unfold strip, strip_by. now rewrite lower_rstrip, lower_lstrip.
Qed.

Lemma last_char_app : forall a b : string,
  b <> "" -> last_char (a ++ b) = last_char b.
Proof.
  intros a b Hb; induction a as [|c a IH]; [reflexivity|].
  cbn [append]. destruct (a ++ b) as [|d t] eqn:E.
  - destruct a; [cbn in E; contradiction | discriminate].
  - exact IH.
Qed.

(** ** More on slicing *)

Lemma drop_app : forall p s : string, drop (String.length p) (p ++ s) = s.
Proof. intros p s; induction p as [|c p IH]; [destruct s; reflexivity | exact IH]. Qed.

Lemma take_app : forall s p : string, take (String.length s) (s ++ p) = s.
Proof.
  intros s p; induction s as [|c s IH]; [destruct p; reflexivity|].
  cbn. now rewrite IH.
Qed.

Lemma endswith_app : forall s p : string, endswith (s ++ p) p = true.
Proof.
  intros s p. unfold endswith. rewrite length_append.
  replace (String.length s + String.length p - String.length p)
    with (String.length s) by lia.
  rewrite drop_app, String.eqb_refl, andb_true_r.
  apply Nat.leb_le. lia.
Qed.

Lemma drop_last_app : forall s p : string,
  drop_last (String.length p) (s ++ p) = s.
Proof.
  intros s p. unfold drop_last. rewrite length_append.
  replace (String.length s + String.length p - String.length p)
    with (String.length s) by lia.
  apply take_app.
Qed.

Lemma prefix_app_l : forall a b s : string,
  prefix (a ++ b) s = true -> prefix a s = true.
Proof.
  intros a b s H. apply prefix_StartsWith in H. destruct H as [rest H].
  apply prefix_StartsWith. exists (b ++ rest). now rewrite H, append_assoc.
Qed.

(** ** llm.py: the validator does not look at case or margins *)

(** X7.  The validator's verdict depends only on the lower-cased text
    between the surrounding whitespace: two queries that differ in letter
    case and in leading or trailing whitespace get the same verdict. *)
Theorem sql_safe_ignores_case_and_margins :
  forall q q' l r l' r' : string,
  forall_chars isspace l = true -> forall_chars isspace r = true ->
  forall_chars isspace l' = true -> forall_chars isspace r' = true ->
  lower q = lower q' ->
  sql_safe (l ++ q ++ r) = sql_safe (l' ++ q' ++ r').
Proof.
  intros q q' l r l' r' Hl Hr Hl' Hr' E.
  assert (T : lower (strip (l ++ q ++ r)) = lower (strip (l' ++ q' ++ r'))).
  { unfold strip. rewrite (strip_by_margins isspace l q r Hl Hr),
      (strip_by_margins isspace l' q' r' Hl' Hr').
    fold (strip q). fold (strip q'). now rewrite !lower_strip, E. }
  unfold sql_safe. now rewrite T.
Qed.

Lemma sql_safe_ignores_case_and_margins_witness :
  sql_safe (nl ++ "  " ++ "SeLeCt Party FROM candidates" ++ " " ++ nl) =
  sql_safe ("" ++ "select party from CANDIDATES" ++ "").
Proof.
  apply (sql_safe_ignores_case_and_margins
           "SeLeCt Party FROM candidates" "select party from CANDIDATES"
           (nl ++ "  ") (" " ++ nl) "" ""); reflexivity.
Defined.

(** ** llm.py: the generator's reply without its code fence *)

Lemma strip_fenced : forall body : string,
  (forall open, head_char open = Some "`"%char ->
     strip (open ++ body ++ "```") = open ++ body ++ "```").
Proof.
  intros body open Hopen. unfold strip, strip_by.
  rewrite lstrip_by_fixed.
  - apply rstrip_by_fixed. intros c Hc.
    rewrite <- append_assoc, last_char_app in Hc by discriminate.
    inversion Hc. reflexivity.
  - intros c Hc. destruct open as [|d open]; [discriminate|].
    cbn in Hc, Hopen. inversion Hopen; subst. inversion Hc. reflexivity.
Qed.

(** X8.  [generate_sql]'s clean-up undoes a code fence: a reply that is,
    between whitespace, a [```sql] or a plain [```] fence line, a body, and
    a closing fence line comes out as the trimmed body, whatever the body
    holds (occurrences of [sql] included).  A reply whose trimmed text
    neither starts nor ends with three backticks comes out trimmed and
    otherwise untouched. *)
Theorem clean_generated_sql_unfences : forall body l r : string,
  forall_chars isspace l = true -> forall_chars isspace r = true ->
  clean_generated_sql (l ++ ("```sql" ++ nl ++ body ++ nl ++ "```") ++ r)
    = strip body /\
  clean_generated_sql (l ++ ("```" ++ nl ++ body ++ nl ++ "```") ++ r)
    = strip body /\
  (startswith (strip body) "```" = false ->
   endswith (strip body) "```" = false ->
   clean_generated_sql (l ++ body ++ r) = strip body).
Proof.
  intros body l r Hl Hr.
  assert (Hmid : strip (nl ++ body ++ nl) = strip body)
    by (apply (strip_by_margins isspace nl body nl); reflexivity).
  split; [|split].
  - unfold clean_generated_sql.
    replace (strip (l ++ ("```sql" ++ nl ++ body ++ nl ++ "```") ++ r))
      with ("```sql" ++ (nl ++ body ++ nl) ++ "```").
    2:{ unfold strip at 1. rewrite (strip_by_margins isspace l _ r Hl Hr).
        fold (strip ("```sql" ++ nl ++ body ++ nl ++ "```")).
        rewrite <- (strip_fenced (nl ++ body ++ nl) "```sql" eq_refl).
        now rewrite !append_assoc. }
    change (startswith ("```sql" ++ (nl ++ body ++ nl) ++ "```") "```sql") with true.
    cbv iota.
    change (drop 6 ("```sql" ++ (nl ++ body ++ nl) ++ "```"))
      with ((nl ++ body ++ nl) ++ "```").
    change (startswith ((nl ++ body ++ nl) ++ "```") "```") with false.
    cbv iota. rewrite endswith_app.
    rewrite (drop_last_app (nl ++ body ++ nl) "```"
             : drop_last 3 ((nl ++ body ++ nl) ++ "```") = nl ++ body ++ nl).
    exact Hmid.
  - unfold clean_generated_sql.
    replace (strip (l ++ ("```" ++ nl ++ body ++ nl ++ "```") ++ r))
      with ("```" ++ (nl ++ body ++ nl) ++ "```").
    2:{ unfold strip at 1. rewrite (strip_by_margins isspace l _ r Hl Hr).
        fold (strip ("```" ++ nl ++ body ++ nl ++ "```")).
        rewrite <- (strip_fenced (nl ++ body ++ nl) "```" eq_refl).
        now rewrite !append_assoc. }
    change (startswith ("```" ++ (nl ++ body ++ nl) ++ "```") "```sql") with false.
    cbv iota.
    change (startswith ("```" ++ (nl ++ body ++ nl) ++ "```") "```") with true.
    cbv iota.
    change (drop 3 ("```" ++ (nl ++ body ++ nl) ++ "```"))
      with ((nl ++ body ++ nl) ++ "```").
    rewrite endswith_app.
    rewrite (drop_last_app (nl ++ body ++ nl) "```"
             : drop_last 3 ((nl ++ body ++ nl) ++ "```") = nl ++ body ++ nl).
    exact Hmid.
  - intros Hs He. unfold clean_generated_sql.
    replace (strip (l ++ body ++ r)) with (strip body)
      by (unfold strip; now rewrite (strip_by_margins isspace l body r Hl Hr)).
    assert (Hs' : startswith (strip body) "```sql" = false).
    { unfold startswith in *. destruct (prefix "```sql" (strip body)) eqn:E;
        [|reflexivity].
      apply (prefix_app_l "```" "sql") in E. congruence. }
    rewrite Hs', Hs, He. apply strip_by_idem.
Qed.

Lemma clean_generated_sql_unfences_witness :
  clean_generated_sql
    (nl ++ ("```sql" ++ nl ++ "SELECT sql_mode FROM t" ++ nl ++ "```") ++ " ")
  = "SELECT sql_mode FROM t".
Proof.
  exact (proj1 (clean_generated_sql_unfences "SELECT sql_mode FROM t" nl " "
                  eq_refl eq_refl)).
Defined.

(** ** llm.py: the generation prompt *)

Lemma rstrip_of_stripped : forall s : string, strip s = s -> rstrip_by isspace s = s.
Proof.
  intros s H. rewrite <- H. unfold strip, strip_by.
  destruct (rstrip_by_spec isspace (lstrip_by isspace s)) as [r [_ [_ Hl]]].
  apply rstrip_by_fixed. exact Hl.
Qed.

Lemma join_last_line : forall (lines : list string) (last q : string),
  join nl (lines ++ [(last ++ q)%string; ""])%list =
  join nl (lines ++ [last])%list ++ q ++ nl.
Proof.
  intros lines last q; induction lines as [|x lines IH].
  - cbn. now rewrite append_assoc.
  - change ((x :: lines) ++ [(last ++ q)%string; ""])%list
      with (x :: (lines ++ [(last ++ q)%string; ""]))%list.
    change ((x :: lines) ++ [last])%list with (x :: (lines ++ [last]))%list.
    destruct lines as [|y lines].
    + cbn. now rewrite !append_assoc.
    + cbn [app join] in *. rewrite IH. now rewrite !append_assoc.
Qed.

(** X9.  The prompt [generate_sql] sends is a fixed text, the same for every
    question, followed by the question itself: the text opens with the
    analyst instruction and holds the schema description and the domain
    notes; a question that is trimmed and not empty (as [ask] passes it)
    stands verbatim at the end. *)
Theorem generate_sql_prompt_frame :
  exists frame : string,
    StartsWith frame "You are a data analyst writing SQL for DuckDB" /\
    Substring DB_SCHEMA frame /\
    Substring DOMAIN_CONTEXT frame /\
    (forall question : string,
       question <> "" -> strip question = question ->
       generate_sql_prompt question = frame ++ question /\
       prompt (generate_sql_request question) = frame ++ question).
Proof.
  exists (drop_last 1 (generate_sql_prompt "x")).
  split; [apply prefix_StartsWith; vm_compute; reflexivity|].
  split; [apply contains_Substring; vm_compute; reflexivity|].
  split; [apply contains_Substring; vm_compute; reflexivity|].
  intros q Hq Hstrip.
  assert (G : generate_sql_prompt q = drop_last 1 (generate_sql_prompt "x") ++ q);
    [|split; [exact G | exact G]].
  set (frame := drop_last 1 (generate_sql_prompt "x")).
  unfold generate_sql_prompt.
  match goal with
  | |- strip (join nl ?lines) = _ =>
      let before := eval cbv [removelast] in (removelast (removelast lines)) in
      change lines with (before ++ [("User question: " ++ q)%string; ""])%list;
      rewrite (join_last_line before "User question: " q);
      replace (join nl (before ++ ["User question: "])%list) with (nl ++ frame)
        by (vm_compute; reflexivity)
  end.
  rewrite append_assoc. unfold strip, strip_by. rewrite lstrip_nl.
  rewrite lstrip_by_app_kept
    by (exists "Y"%char; split; vm_compute; reflexivity).
  assert (R : rstrip_by isspace (q ++ nl) = q).
  { rewrite (rstrip_by_app_all isspace q nl eq_refl).
    now apply rstrip_of_stripped. }
  rewrite rstrip_by_app by (rewrite R; exact Hq).
  now rewrite R.
Qed.

(** ** main.py: the constituency search *)

Lemma count_char_app : forall (c : ascii) (a b : string),
  count_char c (a ++ b) = count_char c a + count_char c b.
Proof.
  intros c a b; induction a as [|d a IH]; [reflexivity|].
  cbn. rewrite IH. lia.
Qed.

Lemma replace_char_count : forall (c : ascii) (s : string),
  count_char c (replace s (String c "") "") = 0.
Proof.
  unfold replace. intros c s; induction s as [|d s IH]; [reflexivity|].
  cbn [replace_from].
  destruct (prefix (String c "") (String d s)) eqn:E.
  - cbn. exact IH.
  - cbn [count_char]. rewrite IH.
    destruct (Ascii.eqb_spec c d) as [->|]; [|reflexivity].
    assert (T : prefix (String d "") (String d s) = true)
      by (apply prefix_StartsWith; exists s; reflexivity).
    congruence.
Qed.

Lemma count_char_strip_by : forall (c : ascii) (p : ascii -> bool) (s : string),
  count_char c (strip_by p s) <= count_char c s.
Proof.
  intros c p s. destruct (strip_by_spec p s) as [l [r [E _]]].
  rewrite E at 2. rewrite !count_char_app. lia.
Qed.

(** X10.  [constituency_search] never lets a single quote of the caller into
    its statement: the cleaned text holds none, so the statement holds
    exactly the four quotes of its template.  A text that is empty after
    cleaning returns the empty list without contacting the store;
    otherwise exactly that one statement is executed, and an error of the
    store is not caught. *)
Theorem constituency_search_sanitizes :
  forall (X : Externals) (q : string) (w : World X),
  let q_clean := strip (replace q "'" "") in
  count_char "'" q_clean = 0 /\
  (q_clean = "" -> constituency_search q w = (Returned [], w)) /\
  (q_clean <> "" ->
     count_char "'" (constituency_search_statement q_clean) = 4 /\
     exists result s',
       cursor_execute X (store w) (constituency_search_statement q_clean)
         = (result, s') /\
       constituency_search q w =
         (match result with
          | inl msg => Raised_duckdb_Error msg
          | inr df => Returned (df_to_clean_dict X df)
          end,
          {| oracle := oracle w; store := s';
             trace := (trace w ++
                       [StoreExecute (constituency_search_statement q_clean)
                          result])%list |})).
Proof.
  intros X q w q_clean.
  assert (Z : count_char "'" q_clean = 0).
  { pose proof (count_char_strip_by "'" isspace (replace q "'" "")) as H.
    rewrite (replace_char_count "'" q) in H. subst q_clean. unfold strip. lia. }
  split; [exact Z|]. split.
  - intros E. unfold constituency_search. fold q_clean. rewrite E. reflexivity.
  - intros N. split.
    + unfold constituency_search_statement. rewrite !count_char_app, Z.
      reflexivity.
    + unfold constituency_search. fold q_clean.
      destruct (String.eqb_spec q_clean ""); [contradiction|].
      destruct (cursor_execute X (store w) (constituency_search_statement q_clean))
        as [result s'].
      exists result, s'. split; [reflexivity|]. destruct result; reflexivity.
Qed.

(** ** Every run of [ask] has one of seven shapes *)

Ltac destruct_scrutinee x :=
  lazymatch x with
  | context [match ?y with _ => _ end] => destruct_scrutinee y
  | _ => destruct x eqn:?
  end.

Section AskPaths.

Variable X : Externals.

Lemma ask_run_sound : forall (req : AskRequest) (w : World X),
  exists evs out w',
    ask X req w = (out, w') /\
    trace w' = (trace w ++ evs)%list /\
    ask_run (strip (req_question req)) evs out.
Proof.
  intros req w.
  unfold ask, generate_sql, repair_sql, generate_answer_text, chat,
    try_execute, bind, ret, raise.
  set (q := strip (req_question req)).
  destruct (String.eqb_spec q "") as [Hq|Hq].
  - exists [], (inl (HTTPException 400 "Empty question")), w.
    rewrite app_nil_r. repeat split. now constructor.
  - repeat (cbn [oracle store trace fst snd negb];
            match goal with
            | |- context [match ?x with _ => _ end] => destruct_scrutinee x
            end);
    repeat match goal with
           | H : negb _ = true |- _ => apply negb_true_iff in H
           | H : negb _ = false |- _ => apply negb_false_iff in H
           end;
    do 3 eexists;
    (split; [reflexivity|]);
    (split; [cbn [trace]; repeat rewrite <- app_assoc; cbn [app]; reflexivity|]);
    try (econstructor; eassumption);
    econstructor; try eassumption;
    match goal with
    | E : (25 <? List.length ?R)%nat = _
      |- summarize_run ?q ?st ?R [OracleCall _ _ (inr ?c)] _ =>
        let S := fresh in
        pose proof (Summarize_returns q st R c _ eq_refl) as S;
        unfold rows_shown in S; rewrite E in S; exact S
    | E : (25 <? List.length ?R)%nat = _
      |- summarize_run ?q ?st ?R [OracleCall _ _ (inl ?m)] _ =>
        let S := fresh in
        pose proof (Summarize_raises q st R m) as S;
        unfold rows_shown in S; rewrite E in S; exact S
    end.
Qed.

Ltac invert_run H :=
  inversion H; subst; clear H;
  repeat match goal with
         | S : summarize_run _ _ _ _ _ |- _ => inversion S; subst; clear S
         end.

(** X1.  A generated query the validator rejects ends the request with
    status 400 and detail [Unsafe SQL]; the only interaction is the
    generation call, and the store keeps its state. *)
Theorem ask_rejects_unsafe_sql :
  forall (req : AskRequest) (w : World X) c0 o1,
  let q := strip (req_question req) in
  q <> "" ->
  chat_completions_create X (oracle w) (generate_sql_request q) = (inr c0, o1) ->
  sql_safe (clean_generated_sql c0) = false ->
  ask X req w =
    (inl (HTTPException 400 "Unsafe SQL"),
     {| oracle := o1; store := store w;
        trace := (trace w ++
                  [OracleCall In_generate_sql (generate_sql_request q) (inr c0)])%list |}).
Proof.
  intros req w c0 o1 q Hq Hgen Hunsafe.
  unfold ask, generate_sql, chat, bind, ret, raise. fold q.
  destruct (String.eqb_spec q ""); [contradiction|].
  rewrite Hgen, Hunsafe. reflexivity.
Qed.

(** X2.  In every run of [ask] at most two statements reach the store, the
    first of them has passed the validator, and the [sql] of a response is
    the last statement the store was given. *)
Theorem ask_validates_first_statement : forall (req : AskRequest) (w : World X),
  exists evs : list (Event X),
    trace (snd (ask X req w)) = (trace w ++ evs)%list /\
    List.length (executed_statements evs) <= 2 /\
    (forall s rest, executed_statements evs = s :: rest -> sql_safe s = true) /\
    (forall resp, fst (ask X req w) = inr resp ->
       List.last (executed_statements evs) "" = sql resp).
Proof.
  intros req w.
  destruct (ask_run_sound req w) as [evs [out [w' [Hask [Htrace Hrun]]]]].
  exists evs. rewrite Hask. cbn [fst snd]. split; [exact Htrace|].
  clear Hask Htrace. invert_run Hrun;
    cbn [executed_statements List.length List.last sql];
    (split; [lia|]); split; intros;
    try discriminate;
    try (match goal with E : _ :: _ = _ :: _ |- _ => inversion E; subst end;
         assumption);
    try (match goal with E : inr _ = inr _ |- _ => inversion E; subst end;
         reflexivity).
Qed.

(** X3.  A repair request is only ever the third interaction of a run,
    directly after the generated query failed in the store, and its prompt
    quotes the failing query, the store's message and the question
    verbatim. *)
Theorem ask_repair_quotes_failure : forall (req : AskRequest) (w : World X),
  exists evs : list (Event X),
    trace (snd (ask X req w)) = (trace w ++ evs)%list /\
    (forall r reply,
       In (OracleCall In_repair_sql r reply) evs ->
       exists c0 e1 rest,
         evs = OracleCall In_generate_sql
                 (generate_sql_request (strip (req_question req))) (inr c0)
               :: StoreExecute (clean_generated_sql c0) (inl e1)
               :: OracleCall In_repair_sql r reply
               :: rest /\
         model r = "gpt-4o" /\
         prompt r =
           "Fix SQL: " ++ clean_generated_sql c0 ++ " Error: " ++ e1 ++
           " Question: " ++ strip (req_question req) ++
           " Return SINGLE SELECT query. No Markdown.").
Proof.
  intros req w.
  destruct (ask_run_sound req w) as [evs [out [w' [Hask [Htrace Hrun]]]]].
  exists evs. rewrite Hask. cbn [fst snd]. split; [exact Htrace|].
  clear Hask Htrace. intros r reply Hin.
  invert_run Hrun; cbn [In] in Hin;
    repeat (destruct Hin as [Hin|Hin]; try discriminate Hin);
    try contradiction;
    inversion Hin; subst; do 3 eexists; repeat split.
Qed.

(** X4.  Whenever a request succeeds with at most 25 rows, the summarizer
    is shown all rows of the result and the answer is the summarizer's
    trimmed text, with nothing appended. *)
Theorem ask_short_results_unsampled :
  forall (req : AskRequest) (w w' : World X) (resp : AskResponse X),
  ask X req w = (inr resp, w') ->
  List.length (rows resp) <= 25 ->
  exists (before : list (Event X)) (df : DataFrame X) (reply : string),
    trace w' =
      (trace w ++ before ++
       [StoreExecute (sql resp) (inr df);
        OracleCall In_generate_answer_text
          (answer_request X (question resp) (sql resp) (rows resp))
          (inr reply)])%list /\
    rows resp = df_to_clean_dict X df /\
    answer resp = strip reply.
Proof.
  intros req w w' resp H Hshort.
  destruct (ask_run_sound req w) as [evs [out [w0 [Hask [Htrace Hrun]]]]].
  rewrite Hask in H. inversion H; subst; clear H Hask.
  rewrite Htrace. clear Htrace.
  invert_run Hrun; cbn [rows sql question answer] in *;
    unfold rows_shown;
    (replace (25 <? List.length (df_to_clean_dict X df))%nat with false
       by (symmetry; apply Nat.ltb_ge; exact Hshort)).
  - exists [OracleCall In_generate_sql
              (generate_sql_request (strip (req_question req))) (inr c0)].
    exists df, content. repeat split.
  - exists [OracleCall In_generate_sql
              (generate_sql_request (strip (req_question req))) (inr c0);
            StoreExecute (clean_generated_sql c0) (inl e1);
            OracleCall In_repair_sql
              (repair_sql_request (strip (req_question req))
                 (clean_generated_sql c0) e1) (inr c1)].
    exists df, content. repeat split.
Qed.

(** X5.  An oracle call that raises ends the run: it is the last
    interaction, nothing is retried, and the request fails with the
    oracle's error; conversely a request only fails with an oracle error
    when its last interaction is an oracle call that raised it. *)
Theorem ask_oracle_failure_is_final : forall (req : AskRequest) (w : World X),
  exists evs : list (Event X),
    trace (snd (ask X req w)) = (trace w ++ evs)%list /\
    (forall caller r msg,
       In (OracleCall caller r (inl msg)) evs ->
       fst (ask X req w) = inl (OracleError msg) /\
       last_event evs = Some (OracleCall caller r (inl msg))) /\
    (forall msg,
       fst (ask X req w) = inl (OracleError msg) ->
       exists caller r, last_event evs = Some (OracleCall caller r (inl msg))).
Proof.
  intros req w.
  destruct (ask_run_sound req w) as [evs [out [w' [Hask [Htrace Hrun]]]]].
  exists evs. rewrite Hask. cbn [fst snd]. split; [exact Htrace|].
  clear Hask Htrace. split.
  - intros caller r msg Hin.
    invert_run Hrun; cbn [In] in Hin;
      repeat (destruct Hin as [Hin|Hin]; try discriminate Hin);
      try contradiction;
      inversion Hin; subst; split; reflexivity.
  - intros msg E. subst out.
    invert_run Hrun; do 2 eexists; reflexivity.
Qed.

(** X6.  Every HTTP error [ask] raises has status 400, and its detail tells
    the stage: [Empty question] before any interaction, [Unsafe SQL] after
    the generation call alone, and [Error executing SQL: ] followed by the
    store's message after exactly two executions, the second of which
    failed with that message. *)
Theorem ask_http_errors :
  forall (req : AskRequest) (w : World X) (code : nat) (detail : string),
  fst (ask X req w) = inl (HTTPException code detail) ->
  code = 400 /\
  exists evs : list (Event X),
    trace (snd (ask X req w)) = (trace w ++ evs)%list /\
    ((detail = "Empty question" /\ evs = []) \/
     (detail = "Unsafe SQL" /\ List.length evs = 1 /\ executed_statements evs = []) \/
     (exists s e,
        detail = "Error executing SQL: " ++ e /\
        last_event evs = Some (StoreExecute s (inl e)) /\
        List.length (executed_statements evs) = 2)).
Proof.
  intros req w code detail E.
  destruct (ask_run_sound req w) as [evs [out [w' [Hask [Htrace Hrun]]]]].
  rewrite Hask in *. cbn [fst snd] in *. clear Hask. subst out.
  invert_run Hrun;
    (split; [reflexivity|]); eexists; (split; [exact Htrace|]).
  - left. split; reflexivity.
  - right. left. repeat split.
  - right. right. do 2 eexists. repeat split.
Qed.

Lemma rows_shown_length : forall (A : Type) (l : list A),
  List.length (rows_shown l) <= 25.
Proof.
  intros A l. unfold rows_shown.
  destruct (25 <? List.length l)%nat eqn:E.
  - rewrite length_firstn. lia.
  - apply Nat.ltb_ge in E. exact E.
Qed.

Lemma answer_prompt_short : forall (q statement : string) (shown : list (Row X)),
  List.length shown <= 120 ->
  answer_prompt X q statement shown =
  answer_prompt_head q statement ++ json_dumps X shown ++ nl ++ answer_prompt_tail.
Proof.
  intros q statement shown H. unfold answer_prompt.
  rewrite answer_prompt_shape. unfold MAX_ROWS_FOR_ANSWER.
  replace (120 <? List.length shown)%nat with false
    by (symmetry; apply Nat.ltb_ge; exact H).
  rewrite firstn_all2 by exact H. reflexivity.
Qed.

(** X11.  Through [ask] the summarizer never receives more than 25 rows:
    every summarizer request of a run is built from at most 25 rows, so its
    prompt holds the JSON of exactly the rows it was given and no
    truncation note. *)
Theorem ask_summarizer_sees_at_most_25_rows :
  forall (req : AskRequest) (w : World X),
  exists evs : list (Event X),
    trace (snd (ask X req w)) = (trace w ++ evs)%list /\
    (forall r reply,
       In (OracleCall In_generate_answer_text r reply) evs ->
       exists (statement : string) (shown : list (Row X)),
         r = answer_request X (strip (req_question req)) statement shown /\
         List.length shown <= 25 /\
         prompt r =
           answer_prompt_head (strip (req_question req)) statement ++
           json_dumps X shown ++ nl ++ answer_prompt_tail).
Proof.
  intros req w.
  destruct (ask_run_sound req w) as [evs [out [w' [Hask [Htrace Hrun]]]]].
  exists evs. rewrite Hask. cbn [fst snd]. split; [exact Htrace|].
  clear Hask Htrace. intros r reply Hin.
  invert_run Hrun; cbn [In] in Hin;
    repeat (destruct Hin as [Hin|Hin]; try discriminate Hin);
    try contradiction;
    inversion Hin; subst; do 2 eexists;
    (split; [reflexivity|]);
    (split; [apply rows_shown_length|]);
    cbn [prompt answer_request]; apply answer_prompt_short;
    pose proof (rows_shown_length _ (df_to_clean_dict X df)); lia.
Qed.

Lemma clean_generated_sql_trimmed : forall c : string,
  strip (clean_generated_sql c) = clean_generated_sql c.
Proof. intros c. unfold clean_generated_sql. apply strip_by_idem. Qed.

Lemma clean_repaired_sql_trimmed : forall c : string,
  strip (clean_repaired_sql c) = clean_repaired_sql c.
Proof.
  intros c. unfold clean_repaired_sql.
  destruct (startswith (strip c) "```"); apply strip_by_idem.
Qed.

(** X12.  Every statement [ask] hands to the store is trimmed, and so are
    the [sql] and the [question] of every response; the question of a
    response is never empty. *)
Theorem ask_outputs_trimmed : forall (req : AskRequest) (w : World X),
  exists evs : list (Event X),
    trace (snd (ask X req w)) = (trace w ++ evs)%list /\
    (forall s, In s (executed_statements evs) -> strip s = s) /\
    (forall resp, fst (ask X req w) = inr resp ->
       strip (sql resp) = sql resp /\
       strip (question resp) = question resp /\
       question resp <> "").
Proof.
  intros req w.
  destruct (ask_run_sound req w) as [evs [out [w' [Hask [Htrace Hrun]]]]].
  exists evs. rewrite Hask. cbn [fst snd]. split; [exact Htrace|].
  clear Hask Htrace. split.
  - intros s Hin.
    invert_run Hrun; cbn [executed_statements In] in Hin;
      repeat (destruct Hin as [Hin|Hin]); try contradiction; subst;
      first [apply clean_generated_sql_trimmed | apply clean_repaired_sql_trimmed].
  - intros resp E. subst out.
    invert_run Hrun;
      cbn [sql question];
      (split; [first [apply clean_generated_sql_trimmed
                     | apply clean_repaired_sql_trimmed]|]);
      (split; [apply strip_by_idem | assumption]).
Qed.

End AskPaths.

(** ** Concrete runs for the further facts *)

(** X1, at a generated [drop table] statement. *)
Lemma ask_rejects_unsafe_sql_witness :
  fst (ask (demo []) {| req_question := "wipe it" |}
         (demo_world [] [inr "drop table candidates"])) =
  inl (HTTPException 400 "Unsafe SQL").
Proof.
  rewrite (ask_rejects_unsafe_sql (demo []) {| req_question := "wipe it" |}
             (demo_world [] [inr "drop table candidates"])
             "drop table candidates" []
             ltac:(vm_compute; discriminate) eq_refl eq_refl).
  reflexivity.
Defined.

(** X4, at a result of three rows. *)
Lemma ask_short_results_unsampled_witness :
  exists reply : string, answer (response_of (fst short_run)) = strip reply.
Proof.
  destruct (ask_short_results_unsampled (demo small_tables)
              {| req_question := "how many?" |}
              (demo_world small_tables short_script)
              (snd short_run) (response_of (fst short_run)))
    as [before [df [reply [_ [_ Ha]]]]].
  - vm_compute. reflexivity.
  - vm_compute. lia.
  - exists reply. exact Ha.
Defined.

(** X6, at a run whose two queries both fail. *)
Lemma ask_http_errors_witness :
  exists evs : list (Event (demo [])),
    trace (snd failing_run) = ([] ++ evs)%list /\
    List.length (executed_statements evs) = 2.
Proof.
  destruct (proj2 (ask_http_errors (demo []) {| req_question := "who won?" |}
                     (demo_world [] failing_script) 400
                     "Error executing SQL: Catalog Error: select y"
                     ltac:(vm_compute; reflexivity)))
    as [evs [Ht [[D _] | [[D _] | [s [e [_ [_ N]]]]]]]];
    try discriminate D.
  exists evs. split; [exact Ht | exact N].
Defined.
